(** * nanoforce-3d: the image-to-point-cloud pipeline of [ModelViewer.tsx]

    A shallow embedding of the colour transform ([applyColorMode]), of the
    sampling pass of [PixelCloud] (the body of [img.onload]) and of the PLY
    exporter ([exportPLY]); and, further down, of the choice of the
    recording type in [startRecording], of the font size of the text
    image in [App.tsx] and of the texture service
    ([generateTextureImage]).

    JavaScript numbers are IEEE 754 binary64 values; they are modelled by
    Rocq's primitive floats, which are the same format with the same
    round-to-nearest-even arithmetic.  The counted loops of the sampler
    run on such numbers, so they are given fuel, and a theorem shows how
    much fuel is always enough. *)

From Stdlib Require Import ZArith List Bool Lia Sorted.
From Stdlib Require Import Strings.String Strings.Ascii Strings.Byte.
From Stdlib Require Import Uint63 Floats.
From Stdlib Require Import DecimalString DecimalN DecimalPos QArith Qabs.
Import ListNotations.

Set Warnings "-inexact-float".

Local Open Scope Z_scope.

(** ** JavaScript numbers *)

Module JS.

Definition number := float.

(** An integer as a number; exact for [0 <= z < 2^53]. *)
Definition of_int (z : Z) : number := PrimFloat.of_uint63 (Uint63.of_Z z).

(** [Math.floor]: the largest integral number not above [x]; NaN, the
    infinities, the zeros and every number of magnitude [2^52] or more
    (which is an integer already) are returned unchanged. *)
Definition Math_floor (x : number) : number :=
  match Prim2SF x with
  | S754_finite s m e =>
      if 0 <=? e then x
      else
        let q := Z.shiftr (Zpos m) (- e) in
        if s then
          if Z.shiftl q (- e) =? Zpos m
          then PrimFloat.opp (of_int q)
          else PrimFloat.opp (of_int (q + 1))
        else of_int q
  | _ => x
  end.

(** [Math.max] and [Math.min] of two arguments: NaN if either is NaN,
    and [+0] counts as larger than [-0]. *)
Definition Math_max (a b : number) : number :=
  if is_nan a || is_nan b then nan
  else if PrimFloat.ltb a b then b
  else if PrimFloat.ltb b a then a
  else if is_zero a && get_sign a then b else a.

Definition Math_min (a b : number) : number :=
  if is_nan a || is_nan b then nan
  else if PrimFloat.ltb a b then a
  else if PrimFloat.ltb b a then b
  else if is_zero a && get_sign a then a else b.

(** The array index a number denotes as a property key, if any: a
    non-negative integer ([-0] is the key ["0"]). *)
Definition to_index (i : number) : option Z :=
  match Prim2SF i with
  | S754_zero _ => Some 0
  | S754_finite false m e =>
      if 0 <=? e then Some (Z.shiftl (Zpos m) e)
      else
        let q := Z.shiftr (Zpos m) (- e) in
        if Z.shiftl q (- e) =? Zpos m then Some q else None
  | _ => None
  end.

(** Reading [data[i]] from a [Uint8ClampedArray].  Out of range the
    read is [undefined]; every use in the sampler converts the value
    to a number, which turns [undefined] into NaN. *)
Definition get_u8 (data : list byte) (i : number) : number :=
  match to_index i with
  | Some n =>
      match nth_error data (Z.to_nat n) with
      | Some b => of_int (Z.of_N (Byte.to_N b))
      | None => nan
      end
  | None => nan
  end.

End JS.

Local Open Scope float_scope.

(** ** Data model *)

(** The twelve colour presets of [types.ts]. *)
Inductive ColorMode :=
| ORIGINAL | COOL_BLACK | CYBERPUNK | MATRIX | GOLDEN | OCEAN
| INFERNO | VAPORWAVE | ARCTIC | MONO | SEPIA | BLUEPRINT.

(** The fields of [AppState] that the sampler reads. *)
Record AppState := {
  samplingStep : JS.number;
  particleSize : JS.number;
  zExtrusion : JS.number;
  transparencyThreshold : JS.number;
  colorMode : ColorMode;
  brightness : JS.number;
  tintColor : string
}.

(** The decoded image: [w], [h] and the RGBA bytes of
    [ctx.getImageData(0, 0, w, h)].  Scaling wide images down to 512
    columns happens before the pass and is not part of it. *)
Record ImageData := {
  width : Z;
  height : Z;
  data : list byte
}.

(** [particlesData]: two flat arrays, three numbers per point each. *)
Record particles := {
  pos : list JS.number;
  col : list JS.number
}.

Definition rgb := (JS.number * JS.number * JS.number)%type.

Section Pipeline.

(** [new THREE.Color(hex)] belongs to three.js; the channels it yields
    for a hex string are a parameter of the development. *)
Variable THREE_Color : string -> rgb.

(** ** Colour transform ([applyColorMode], lines 22-86) *)

Definition applyColorMode (r g b : JS.number) (mode : ColorMode)
    (brightness : JS.number) (tintHex : string) : rgb :=
  let normR := r / 255 in
  let normG := g / 255 in
  let normB := b / 255 in
  let gray := normR * 0.299 + normG * 0.587 + normB * 0.114 in
  let '(finalR, finalG, finalB) :=
    match mode with
    | COOL_BLACK => (gray * 0.2, gray * 0.2, gray * 0.3 + 0.1)
    | CYBERPUNK => (normR * 1.2, normG * 0.8, normB * 1.5)
    | MATRIX => (0, gray * 1.5, 0)
    | GOLDEN => (gray * 1.2, gray * 0.9, gray * 0.2)
    | OCEAN => (0, gray * 0.8, gray * 1.2)
    | INFERNO => (gray * 1.5, gray * 0.5, 0)
    | VAPORWAVE =>
        (JS.Math_min 1 (normR + 0.2), normG * 0.8, JS.Math_min 1 (normB + 0.3))
    | ARCTIC => (gray * 0.8, gray * 0.9, 1.0)
    | MONO => (gray, gray, gray)
    | SEPIA =>
        (JS.Math_min 1 ((normR * 0.393) + (normG * 0.769) + (normB * 0.189)),
         JS.Math_min 1 ((normR * 0.349) + (normG * 0.686) + (normB * 0.168)),
         JS.Math_min 1 ((normR * 0.272) + (normG * 0.534) + (normB * 0.131)))
    | BLUEPRINT => (0, gray * 0.5, 1.0)
    | ORIGINAL => (normR, normG, normB)
    end in
  let '(finalR, finalG, finalB) :=
    if String.eqb tintHex "#ffffff" then (finalR, finalG, finalB)
    else
      let '(tr, tg, tb) := THREE_Color tintHex in
      (finalR * tr, finalG * tg, finalB * tb) in
  (finalR * brightness, finalG * brightness, finalB * brightness).

(** ** Sampler (the body of [img.onload], lines 235-273) *)

(** [for (let i = start; i < bound; i += step) body(i)], with [fuel]
    bounding the number of iterations; [None] when it runs out. *)
Fixpoint for_loop {A : Type} (fuel : nat) (bound step : JS.number)
    (body : JS.number -> A -> option A) (i : JS.number) (acc : A)
    : option A :=
  if i <? bound then
    match fuel with
    | O => None
    | S fuel' =>
        match body i acc with
        | Some acc' => for_loop fuel' bound step body (i + step) acc'
        | None => None
        end
    end
  else Some acc.

Definition push3 (arr : list JS.number) (a b c : JS.number) :=
  (arr ++ [a; b; c])%list.

Section Pass.

Variable img : ImageData.
Variable appState : AppState.

Let w := JS.of_int (width img).
Let h := JS.of_int (height img).

Definition step := JS.Math_max 1 (JS.Math_floor (samplingStep appState)).
Definition offsetX := w / 2.
Definition offsetY := h / 2.

(** The body of the inner loop at column [x] of row [y], acting on
    [validPoints] and [validColors]. *)
Definition visit (y x : JS.number) (acc : particles) : particles :=
  let i := (y * w + x) * 4 in
  let r := JS.get_u8 (data img) i in
  let g := JS.get_u8 (data img) (i + 1) in
  let b := JS.get_u8 (data img) (i + 2) in
  let a := JS.get_u8 (data img) (i + 3) in
  if transparencyThreshold appState <=? a then
    let brightnessVal := (r + g + b) / (3 * 255) in
    let posX := (x - offsetX) * particleSize appState * 0.02 in
    let posY := (- (y - offsetY)) * particleSize appState * 0.02 in
    let posZ := brightnessVal * zExtrusion appState * 0.02 in
    let '(cr, cg, cb) :=
      applyColorMode r g b (colorMode appState) (brightness appState)
        (tintColor appState) in
    {| pos := push3 (pos acc) posX posY posZ;
       col := push3 (col acc) cr cg cb |}
  else acc.

Definition scan_row (fuel : nat) (y : JS.number) (acc : particles)
    : option particles :=
  for_loop fuel w step (fun x acc => Some (visit y x acc)) 0 acc.

(** The pass with an explicit iteration budget per loop. *)
Definition sample_fuel (fuel : nat) : option particles :=
  for_loop fuel h step (scan_row fuel) 0 {| pos := []; col := [] |}.

(** The pass itself: no loop runs longer than the image is wide or
    tall, see [sample_fuel_visited]. *)
Definition sample : option particles :=
  sample_fuel (Z.to_nat (Z.max (width img) (height img))).

End Pass.

End Pipeline.

(** ** PLY export ([exportPLY], lines 99-134) *)
Local Open Scope Z_scope.

Definition nl : string := String "010"%char EmptyString.

(** The decimal digits of a natural number. *)
Definition decimal (n : N) : string := NilZero.string_of_uint (N.to_uint n).

Definition digit (d : Z) : ascii := ascii_of_N (48 + Z.to_N d).

(** The three digits of [f], for [0 <= f < 1000]. *)
Definition frac3 (f : Z) : string :=
  String (digit (f / 100))
    (String (digit (f / 10 mod 10))
       (String (digit (f mod 10)) EmptyString)).

(** [n] thousandths written with three decimals. *)
Definition fixed3 (n : Z) : string :=
  (decimal (Z.to_N (n / 1000)) ++ "." ++ frac3 (n mod 1000))%string.

(** The integer [m * 2^e], when it is one. *)
Definition integral (m : positive) (e : Z) : option Z :=
  if 0 <=? e then Some (Z.shiftl (Zpos m) e)
  else
    let q := Z.shiftr (Zpos m) (- e) in
    if Z.shiftl q (- e) =? Zpos m then Some q else None.

(** [m * 2^e * 1000] rounded to the nearest integer, ties upwards. *)
Definition thousandths (m : positive) (e : Z) : Z :=
  if 0 <=? e then Z.shiftl (Zpos m) e * 1000
  else Z.shiftr (2000 * Zpos m + Z.shiftl 1 (- e)) (1 - e).

Definition sign_text (s : bool) : string := if s then "-" else "".

Section Exporter.

(** [Number::toString] for numbers that are not integers below
    [2^53]: the shortest digits that read back as the same number.
    This digit generation belongs to the JavaScript engine and is a
    parameter here. *)
Variable shortest_digits : JS.number -> string.

(** [String(x)], as template literals apply it to a number. *)
Definition Number_toString (x : JS.number) : string :=
  match Prim2SF x with
  | S754_nan => "NaN"
  | S754_infinity false => "Infinity"
  | S754_infinity true => "-Infinity"
  | S754_zero _ => "0"
  | S754_finite s m e =>
      match integral m e with
      | Some z =>
          if z <? 2 ^ 53 then (sign_text s ++ decimal (Z.to_N z))%string
          else shortest_digits x
      | None => shortest_digits x
      end
  end.

(** [x.toFixed(3)]. *)
Definition toFixed3 (x : JS.number) : string :=
  match Prim2SF x with
  | S754_nan => "NaN"
  | S754_infinity false => "Infinity"
  | S754_infinity true => "-Infinity"
  | S754_zero _ => "0.000"
  | S754_finite s m e =>
      if (0 <=? e) && (10 ^ 21 <=? Z.shiftl (Zpos m) e)
      then Number_toString x
      else (sign_text s ++ fixed3 (thousandths m e))%string
  end.

(** A colour channel as the byte the file stores. *)
Definition uchar (c : JS.number) : JS.number :=
  (JS.Math_min 255 (JS.Math_max 0 (JS.Math_floor (c * 255))))%float.

(** Reading [arr[i]] where the value is then used as a number. *)
Definition get_number (arr : list JS.number) (i : nat) : JS.number :=
  nth i arr nan.

Definition ply_header (count : JS.number) : string :=
  ("ply" ++ nl ++
   "format ascii 1.0" ++ nl ++
   "element vertex " ++ Number_toString count ++ nl ++
   "property float x" ++ nl ++
   "property float y" ++ nl ++
   "property float z" ++ nl ++
   "property uchar red" ++ nl ++
   "property uchar green" ++ nl ++
   "property uchar blue" ++ nl ++
   "end_header" ++ nl)%string.

Definition vertex_line (x y z r g b : JS.number) : string :=
  (toFixed3 x ++ " " ++ toFixed3 y ++ " " ++ toFixed3 z ++ " "
   ++ Number_toString r ++ " " ++ Number_toString g ++ " "
   ++ Number_toString b ++ nl)%string.

(** One iteration of the export loop at index [i]; [None] is the
    [TypeError] of calling [toFixed] on [undefined]. *)
Definition export_vertex (pd : particles) (i : nat) (plyContent : string)
    : option string :=
  let r := uchar (get_number (col pd) i) in
  let g := uchar (get_number (col pd) (i + 1)) in
  let b := uchar (get_number (col pd) (i + 2)) in
  match nth_error (pos pd) i, nth_error (pos pd) (i + 1),
        nth_error (pos pd) (i + 2) with
  | Some x, Some y, Some z => Some (plyContent ++ vertex_line x y z r g b)%string
  | _, _, _ => None
  end.

(** [for (let i = start; i < pos.length; i += 3)], run for the
    [count] iterations it takes. *)
Fixpoint export_loop (count : nat) (pd : particles) (i : nat)
    (plyContent : string) : option string :=
  match count with
  | O => Some plyContent
  | S count' =>
      match export_vertex pd i plyContent with
      | Some plyContent' => export_loop count' pd (i + 3) plyContent'
      | None => None
      end
  end.

Inductive export_outcome :=
| NoFile                       (* returned before writing anything *)
| Download (plyContent : string)
| TypeError.

Definition exportPLY (particlesData : option particles) : export_outcome :=
  match particlesData with
  | None => NoFile
  | Some pd =>
      let len := List.length (pos pd) in
      if Nat.eqb len 0 then NoFile
      else
        let plyContent := ply_header (JS.of_int (Z.of_nat len) / 3)%float in
        match export_loop ((len + 2) / 3) pd 0 plyContent with
        | Some plyContent' => Download plyContent'
        | None => TypeError
        end
  end.

End Exporter.

(** ** Definitions used to state the properties *)

Local Open Scope Z_scope.

(** The number of binary digits of a positive integer. *)
Definition dig (v : Z) : Z := Z.log2 v + 1.

(** Steps that end a loop after its first iteration: NaN, [+Infinity]
    and the finite numbers from [2^52] on. *)
Definition stopper (s : float) : Prop :=
  match Prim2SF s with
  | S754_nan => True
  | S754_infinity false => True
  | S754_finite false _ e => 0 <= e
  | _ => False
  end.

(** The successive values of the counter of [for_loop]. *)
Fixpoint loop_indices (fuel : nat) (bound step i : JS.number)
    : option (list JS.number) :=
  if (i <? bound)%float then
    match fuel with
    | O => None
    | S fuel' =>
        match loop_indices fuel' bound step (i + step)%float with
        | Some l => Some (i :: l)
        | None => None
        end
    end
  else Some [].

Fixpoint stride_from (count : nat) (a n : Z) : list Z :=
  match count with
  | O => []
  | S c => a :: stride_from c (a + n) n
  end.

(** The multiples of [n] below [bound], ascending. *)
Definition multiples (n bound : Z) : list Z :=
  stride_from (Z.to_nat ((bound + n - 1) / n)) 0 n.

(** The integers a loop counter runs through below [bound]: the
    multiples of the step when the step is an integer, and 0 alone when
    it is NaN or infinite. *)
Definition axisZ (bound : Z) (step : JS.number) : list Z :=
  match JS.to_index step with
  | Some n => multiples n bound
  | None => if 0 <? bound then [0] else []
  end.

(** The values of the counter, as numbers. *)
Definition axis (bound : Z) (step : JS.number) : list JS.number :=
  map JS.of_int (axisZ bound step).

(** The sizes the theorems about the pass are stated for.  In the
    browser [getImageData] (line 232) throws on a width or a height of
    0 before the pass starts, so the images the pass receives have both
    at least 1; they are among the images meant here. *)
Definition image_ok (img : ImageData) : Prop :=
  0 <= width img < 2 ^ 32 /\ 0 <= height img < 2 ^ 32.

(** The coordinates [(x, y)] the two loops visit, in the order of the
    visits. *)
Definition visited (img : ImageData) (st : AppState) : list (JS.number * JS.number) :=
  flat_map (fun y => map (fun x => (x, y)) (axis (width img) (step st)))
    (axis (height img) (step st)).

(** The channels the sampler reads for the pixel at [(x, y)]. *)
Definition pixel (img : ImageData) (x y : JS.number)
    : JS.number * JS.number * JS.number * JS.number :=
  let i := ((y * JS.of_int (width img) + x) * 4)%float in
  (JS.get_u8 (data img) i, JS.get_u8 (data img) (i + 1)%float,
   JS.get_u8 (data img) (i + 2)%float, JS.get_u8 (data img) (i + 3)%float).

Definition alpha (img : ImageData) (xy : JS.number * JS.number) : JS.number :=
  snd (pixel img (fst xy) (snd xy)).

Definition retained (img : ImageData) (st : AppState) (xy : JS.number * JS.number) : bool :=
  (transparencyThreshold st <=? alpha img xy)%float.

(** The integer coordinates [(a, b)] behind [visited]. *)
Definition cells (img : ImageData) (st : AppState) : list (Z * Z) :=
  flat_map (fun b => map (fun a => (a, b)) (axisZ (width img) (step st)))
    (axisZ (height img) (step st)).

Definition as_numbers (ab : Z * Z) : JS.number * JS.number :=
  (JS.of_int (fst ab), JS.of_int (snd ab)).

(** The byte at offset [n] of the buffer as a number, NaN past its
    end. *)
Definition byte_at (bytes : list byte) (n : Z) : JS.number :=
  match nth_error bytes (Z.to_nat n) with
  | Some b => JS.of_int (Z.of_N (Byte.to_N b))
  | None => nan
  end.

(** The four channels of the pixel in column [a] of row [b] of the
    row-major buffer. *)
Definition rgba_at (img : ImageData) (ab : Z * Z)
    : JS.number * JS.number * JS.number * JS.number :=
  let n := 4 * (snd ab * width img + fst ab) in
  (byte_at (data img) n, byte_at (data img) (n + 1),
   byte_at (data img) (n + 2), byte_at (data img) (n + 3)).

Definition alpha_at (img : ImageData) (ab : Z * Z) : JS.number :=
  snd (rgba_at img ab).

Section ScanDefs.
Variable THREE_Color : string -> rgb.
Variable img : ImageData.
Variable st : AppState.

Definition empty_particles := {| pos := []; col := [] |}.

Definition scan (l : list (JS.number * JS.number)) (acc : particles) : particles :=
  fold_left (fun a xy => visit THREE_Color img st (snd xy) (fst xy) a) l acc.

(** What one retained pixel appends to [validPoints] and to
    [validColors]. *)
Definition position (xy : JS.number * JS.number) : list JS.number :=
  let '(x, y) := xy in
  let '(r, g, b, _) := pixel img x y in
  [((x - JS.of_int (width img) / 2) * particleSize st * 0.02)%float;
   (- (y - JS.of_int (height img) / 2) * particleSize st * 0.02)%float;
   ((r + g + b) / (3 * 255) * zExtrusion st * 0.02)%float].

Definition colour (xy : JS.number * JS.number) : list JS.number :=
  let '(x, y) := xy in
  let '(r, g, b, _) := pixel img x y in
  let '(cr, cg, cb) :=
    applyColorMode THREE_Color r g b (colorMode st) (brightness st) (tintColor st) in
  [cr; cg; cb].

End ScanDefs.

Local Open Scope float_scope.
(** ** Scenarios *)

(** A 1x1 opaque white image. *)
Definition white_pixel : ImageData :=
  {| width := 1; height := 1; data := [xff; xff; xff; xff] |}.

(** The configuration of the single-pixel scenario; the spec leaves
    [particleSize] and [zExtrusion] open. *)
Definition scenario (ps ze : JS.number) : AppState :=
  {| samplingStep := 1; particleSize := ps; zExtrusion := ze;
     transparencyThreshold := 0; colorMode := ORIGINAL;
     brightness := 1; tintColor := "#ffffff" |}.

(** The initial [AppState] of [App.tsx]. *)
Definition defaults : AppState :=
  {| samplingStep := 3.0; particleSize := 1.5; zExtrusion := 400;
     transparencyThreshold := 20; colorMode := ORIGINAL;
     brightness := 1.0; tintColor := "#ffffff" |}.

(** A stand-in for three.js that reads every hex string as white. *)
Definition white_tint : string -> rgb := fun _ => (1, 1, 1).


(** ** Reading a PLY file back *)

Local Open Scope Z_scope.

(** The pieces of [s] between the occurrences of [c]. *)
Fixpoint split_on (c : ascii) (s : string) : list string :=
  match s with
  | EmptyString => [EmptyString]
  | String a s' =>
      if Ascii.eqb a c then EmptyString :: split_on c s'
      else
        match split_on c s' with
        | [] => [String a EmptyString]
        | t :: ts => String a t :: ts
        end
  end.

Fixpoint string_forall (p : ascii -> bool) (s : string) : bool :=
  match s with
  | EmptyString => true
  | String a t => p a && string_forall p t
  end.

Definition is_digit (a : ascii) : bool :=
  ((48 <=? N_of_ascii a) && (N_of_ascii a <=? 57))%N.

(** The characters of a printed number: digits, sign and point. *)
Definition is_num_char (a : ascii) : bool :=
  is_digit a || Ascii.eqb a "-" || Ascii.eqb a ".".

Definition parse_nat (s : string) : option N :=
  option_map N.of_uint (NilZero.uint_of_string s).

(** A decimal with exactly three digits after the point, as a
    rational. *)
Definition parse_fixed3 (s : string) : option Q :=
  let '(neg, body) :=
    match s with
    | String a t => if Ascii.eqb a "-" then (true, t) else (false, s)
    | EmptyString => (false, s)
    end in
  match split_on "." body with
  | [ip; fp] =>
      if (String.length fp =? 3)%nat then
        match parse_nat ip, parse_nat fp with
        | Some a, Some b =>
            let q := (Z.of_N (a * 1000 + b) # 1000)%Q in
            Some (if neg then (- q)%Q else q)
        | _, _ => None
        end
      else None
  | _ => None
  end.

(** One vertex line: three coordinates and three colour bytes. *)
Definition parse_vertex (line : string) : option (Q * Q * Q * N * N * N) :=
  match split_on " " line with
  | [x; y; z; r; g; b] =>
      match parse_fixed3 x, parse_fixed3 y, parse_fixed3 z,
            parse_nat r, parse_nat g, parse_nat b with
      | Some qx, Some qy, Some qz, Some nr, Some ng, Some nb =>
          Some (qx, qy, qz, nr, ng, nb)
      | _, _, _, _, _, _ => None
      end
  | _ => None
  end.

(** The exact value of a finite number. *)
Definition F2Q (x : JS.number) : Q :=
  match Prim2SF x with
  | S754_finite s m e =>
      let q := if 0 <=? e then inject_Z (Zpos m * 2 ^ e)
               else (Zpos m # Z.to_pos (2 ^ (- e)))%Q in
      if s then (- q)%Q else q
  | _ => 0%Q
  end.

(** The numbers [toFixed(3)] writes in fixed notation: finite and below
    [10^21] in magnitude. *)
Definition fixable (x : JS.number) : bool :=
  match Prim2SF x with
  | S754_zero _ => true
  | S754_finite _ m e => negb ((0 <=? e) && (10 ^ 21 <=? Z.shiftl (Zpos m) e))
  | _ => false
  end.

(** The lines of the header for [N] vertices. *)
Definition header_lines (N : N) : list string :=
  ["ply"; "format ascii 1.0"; ("element vertex " ++ decimal N)%string;
   "property float x"; "property float y"; "property float z";
   "property uchar red"; "property uchar green"; "property uchar blue";
   "end_header"]%string.

(** All three-digit fractions print and read back. *)
Definition frac3_ok (f : Z) : bool :=
  string_forall is_digit (frac3 f)
  && (String.length (frac3 f) =? 3)%nat
  && match parse_nat (frac3 f) with
     | Some n => (Z.of_N n =? f)
     | None => false
     end.

(** Every line followed by a newline. *)
Fixpoint unlines (l : list string) : string :=
  match l with
  | [] => EmptyString
  | t :: l' => (t ++ nl ++ unlines l')%string
  end.

Definition no_newline (s : string) : bool :=
  string_forall (fun a => negb (Ascii.eqb a "010")) s.

Definition no_space (s : string) : bool :=
  string_forall (fun a => negb (Ascii.eqb a " ")) s.

(** Six fields joined by single spaces. *)
Definition join6 (a b c d e f : string) : string :=
  (a ++ " " ++ b ++ " " ++ c ++ " " ++ d ++ " " ++ e ++ " " ++ f)%string.

(** The text of the vertex line written at index [i]. *)
Definition vertex_text (shortest_digits : JS.number -> string)
    (pd : particles) (i : nat) : string :=
  join6 (toFixed3 shortest_digits (get_number (pos pd) i))
        (toFixed3 shortest_digits (get_number (pos pd) (i + 1)))
        (toFixed3 shortest_digits (get_number (pos pd) (i + 2)))
        (Number_toString shortest_digits (uchar (get_number (col pd) i)))
        (Number_toString shortest_digits (uchar (get_number (col pd) (i + 1))))
        (Number_toString shortest_digits (uchar (get_number (col pd) (i + 2)))).

Fixpoint texts_from (shortest_digits : JS.number -> string)
    (pd : particles) (count i : nat) : list string :=
  match count with
  | O => []
  | S c =>
      vertex_text shortest_digits pd i
      :: texts_from shortest_digits pd c (i + 3)
  end.


Local Open Scope float_scope.

(** A cloud of two points, as the sampler could have left it. *)
Definition two_points : particles :=
  {| pos := [-0.015; 0.015; 8; 1.5; -2.25; 0];
     col := [1; 1; 1; 0.5; 2; 0] |}.

(** ** Further definitions: the rest of the sampler's behaviour *)

Local Open Scope Z_scope.

(** The integers [0, 1, ..., n-1]. *)
Definition upto (n : Z) : list Z := map Z.of_nat (seq 0 (Z.to_nat n)).

(** The number of steps of width [n] it takes to cover [bound]. *)
Definition strides (n bound : Z) : nat := Z.to_nat ((bound + n - 1) / n).

(** The buffer holds four bytes for every pixel of the image. *)
Definition buffer_complete (img : ImageData) : Prop :=
  Z.of_nat (List.length (data img)) = 4 * width img * height img
  /\ 4 * width img * height img < 2 ^ 53.

Local Open Scope float_scope.

(** The share of full brightness of a pixel whose channels sum to [s]. *)
Definition luma_of_sum (s : Z) : JS.number := JS.of_int s / (3 * 255).

Definition luma_in_range (s : Z) : bool :=
  (0 <=? luma_of_sum s) && (luma_of_sum s <=? 1).

(** The initial configuration with the step 1.5 of the slider. *)
Definition fine_step : AppState :=
  {| samplingStep := 1.5; particleSize := 1.5; zExtrusion := 400;
     transparencyThreshold := 20; colorMode := ORIGINAL;
     brightness := 1; tintColor := "#ffffff" |}.

(** The initial configuration with a step that is not a number. *)
Definition nan_step : AppState :=
  {| samplingStep := nan; particleSize := 1.5; zExtrusion := 400;
     transparencyThreshold := 20; colorMode := ORIGINAL;
     brightness := 1; tintColor := "#ffffff" |}.

(** The byte written for the first channel of a gray pixel [(v, v, v)]
    under [mode], with brightness 1 and white tint. *)
Definition gray_byte (mode : ColorMode) (v : Z) : JS.number :=
  let '(cr, _, _) :=
    applyColorMode white_tint (JS.of_int v) (JS.of_int v) (JS.of_int v)
      mode 1 "#ffffff" in
  uchar cr.

(** Under ORIGINAL the byte [v] is written back as [v]. *)
Definition original_keeps (v : Z) : bool :=
  PrimFloat.Leibniz.eqb (uchar (JS.of_int v / 255 * 1)) (JS.of_int v).

(** Under MONO the gray byte [v] is written as [v] or as [v - 1]. *)
Definition mono_near (v : Z) : bool :=
  PrimFloat.Leibniz.eqb (gray_byte MONO v) (JS.of_int v)
  || PrimFloat.Leibniz.eqb (gray_byte MONO v) (JS.of_int (v - 1)).

(** A stand-in for the engine's digit generation. *)
Definition no_digits : JS.number -> string := fun _ => "?"%string.

(** ** The stride in the words of the specification *)

Local Open Scope Z_scope.

(** The integer part of a number, rounding down: the largest integer
    not above [s], for a finite [s]. *)
Definition floorZ (s : JS.number) : option Z :=
  match Prim2SF s with
  | S754_zero _ => Some 0
  | S754_finite sg m e =>
      let v := if sg then Zneg m else Zpos m in
      Some (if 0 <=? e then v * 2 ^ e else v / 2 ^ (- e))
  | _ => None
  end.

(** Modelled on the words of the specification, to compare [step] with:
    the stride [max(1, floor(config.step))] as an integer, for a finite
    [config.step]. *)
Definition effective_stride (s : JS.number) : option Z :=
  option_map (Z.max 1) (floorZ s).

(** An image of five columns and three rows; the second pixel of every
    three is nearly transparent. *)
Definition strip : ImageData :=
  {| width := 5; height := 3;
     data :=
    [x00; xff; x00; xff;
     x10; xef; x08; x08;
     x20; xdf; x10; xff;
     x30; xcf; x18; xff;
     x40; xbf; x20; x08;

     x50; xaf; x28; xff;
     x60; x9f; x30; xff;
     x70; x8f; x38; x08;
     x80; x7f; x40; xff;
     x90; x6f; x48; xff;

     xa0; x5f; x50; x08;
     xb0; x4f; x58; xff;
     xc0; x3f; x60; xff;
     xd0; x2f; x68; x08;
     xe0; x1f; x70; xff] |}.

Local Open Scope float_scope.

(** The initial configuration with the step 2.5 of the slider. *)
Definition coarse_step : AppState :=
  {| samplingStep := 2.5; particleSize := 1.5; zExtrusion := 400;
     transparencyThreshold := 20; colorMode := ORIGINAL;
     brightness := 1; tintColor := "#ffffff" |}.

(** ** The pass on the store

    Arrays are objects: the pass makes two new ones, fills them with
    [push] and hands them to [setParticlesData]; the arrays of earlier
    passes are still there.  The store keeps every array made so far
    under its address, and the component keeps the addresses that
    [particlesData] holds. *)

Definition ref := nat.

Definition store := list (list JS.number).

(** [[]]: a new array, at the next address. *)
Definition new_array (s : store) : ref * store :=
  (List.length s, (s ++ [[]])%list).

Definition array_at (s : store) (r : ref) : list JS.number := nth r s [].

(** [arr.push(v1, v2, v3)] on the array at [r]. *)
Fixpoint array_push (s : store) (r : ref) (vs : list JS.number) : store :=
  match s, r with
  | [], _ => []
  | a :: s', O => (a ++ vs)%list :: s'
  | a :: s', S r' => a :: array_push s' r' vs
  end.

Record component := {
  arrays : store;
  particlesData : option (ref * ref)
}.

(** The cloud a component shows: what its two arrays hold now. *)
Definition cloud_of (c : component) : option particles :=
  match particlesData c with
  | Some (p, q) =>
      Some {| pos := array_at (arrays c) p; col := array_at (arrays c) q |}
  | None => None
  end.

Section OnStore.

Variable THREE_Color : string -> rgb.
Variable img : ImageData.
Variable appState : AppState.

(** The body of the inner loop (lines 244-269), pushing to the arrays
    at [validPoints] and [validColors]. *)
Definition visit_in (validPoints validColors : ref) (y x : JS.number)
    (s : store) : store :=
  let w := JS.of_int (width img) in
  let i := (y * w + x) * 4 in
  let r := JS.get_u8 (data img) i in
  let g := JS.get_u8 (data img) (i + 1) in
  let b := JS.get_u8 (data img) (i + 2) in
  let a := JS.get_u8 (data img) (i + 3) in
  if transparencyThreshold appState <=? a then
    let brightnessVal := (r + g + b) / (3 * 255) in
    let posX := (x - offsetX img) * particleSize appState * 0.02 in
    let posY := (- (y - offsetY img)) * particleSize appState * 0.02 in
    let posZ := brightnessVal * zExtrusion appState * 0.02 in
    let s := array_push s validPoints [posX; posY; posZ] in
    let '(cr, cg, cb) :=
      applyColorMode THREE_Color r g b (colorMode appState)
        (brightness appState) (tintColor appState) in
    array_push s validColors [cr; cg; cb]
  else s.

(** Lines 235-273 on a component: two new arrays, the two loops, and
    [setParticlesData] with the new arrays. *)
Definition onload_fuel (fuel : nat) (c : component) : option component :=
  let w := JS.of_int (width img) in
  let h := JS.of_int (height img) in
  let '(validPoints, s1) := new_array (arrays c) in
  let '(validColors, s2) := new_array s1 in
  match
    for_loop fuel h (step appState)
      (fun y s =>
         for_loop fuel w (step appState)
           (fun x s => Some (visit_in validPoints validColors y x s)) 0 s)
      0 s2
  with
  | Some s3 =>
      Some {| arrays := s3; particlesData := Some (validPoints, validColors) |}
  | None => None
  end.

Definition onload (c : component) : option component :=
  onload_fuel (Z.to_nat (Z.max (width img) (height img))) c.

End OnStore.

(** The store holds the two arrays of the running pass above the
    arrays [s0] that were there before, and those are as they were. *)
Definition holds (s0 s : store) (acc : particles) : Prop :=
  List.length s = S (S (List.length s0))
  /\ (forall r, (r < List.length s0)%nat -> array_at s r = array_at s0 r)
  /\ array_at s (List.length s0) = pos acc
  /\ array_at s (S (List.length s0)) = col acc.

(** ** Recording ([startRecording], lines 135-197): the container type *)

Local Open Scope string_scope.

Definition mimeTypes : list string :=
  ["video/webm; codecs=av1";
   "video/webm; codecs=vp9";
   "video/webm; codecs=vp8";
   "video/webm"].

(** [for (const type of types) if (isTypeSupported(type))
    { selected = type; break; }] *)
Fixpoint select_supported (isTypeSupported : string -> bool)
    (types : list string) (selected : string) : string :=
  match types with
  | [] => selected
  | type :: rest =>
      if isTypeSupported type then type
      else select_supported isTypeSupported rest selected
  end.

Definition selectedMimeType (isTypeSupported : string -> bool) : string :=
  select_supported isTypeSupported mimeTypes "video/webm".

(** A browser that records nothing, and one that knows VP8 only. *)
Definition supports_nothing : string -> bool := fun _ => false.
Definition supports_vp8 : string -> bool :=
  fun type => String.eqb type "video/webm; codecs=vp8".

(** ** Text mode ([handleGenerate] of [App.tsx], lines 82-92): the font size *)

Local Open Scope float_scope.

(** The size of the font after the text has been measured at the base
    size; [measured] is [metrics.width]. *)
Definition fontSize (measured : JS.number) : JS.number :=
  let width := 800 in
  let baseFont := 260 in
  let maxWidth := width * 0.9 in
  if maxWidth <? measured
  then JS.Math_max 60 (JS.Math_floor (baseFont * (maxWidth / measured)))
  else baseFont.

(** ** Texture service ([generateTextureImage], lines 8-68 of the service) *)

Module Gemini.

Local Open Scope string_scope.

Inductive TextureStyle :=
| PIXEL_ART | VOXEL | REALISTIC | CARTOON | CYBERPUNK | HAND_PAINTED.

Record Blob := { data : option string }.

Record Part := { text : option string; inlineData : option Blob }.

(** A candidate of the response; [parts] is [None] when the candidate
    has no content, or its content no parts. *)
Record Candidate := { parts : option (list Part) }.

Record Response := { candidates : option (list Candidate) }.

(** What the [message] property of a rejected value holds. *)
Inductive message_value :=
| Missing                    (* a falsy value that is no string: [undefined] *)
| Text (s : string)          (* a string *)
| Convertible (s : string)   (* a truthy value that is no string, and what
                                [new Error] makes of it as a string *)
| Unconvertible.             (* a truthy value that no string can be made
                                of: a symbol *)

(** What the request was rejected with: [catch (error: any)] takes any
    value. *)
Inductive rejection :=
| Nullish                    (* [null] or [undefined] *)
| Carrying (message : message_value).

(** How the request settles. *)
Inductive settled :=
| Resolved (response : Response)
| Rejected (error : rejection).

(** [Thrown] is an [Error] the function made; [Uncaught_TypeError] is
    a [TypeError] of the engine raised inside the [catch] block, which
    nothing catches. *)
Inductive outcome :=
| Returned (url : string)
| Thrown (message : string)
| Uncaught_TypeError.

(** A string as a condition, and [a || b] on strings. *)
Definition truthy (s : string) : bool := negb (String.eqb s "").

Definition or_else (a b : string) : string := if truthy a then a else b.

(** The [catch] block (lines 65-68):
    [throw new Error(error.message || "Failed to generate texture.")]. *)
Definition rethrow (error : rejection) : outcome :=
  match error with
  | Nullish => Uncaught_TypeError
  | Carrying Missing => Thrown "Failed to generate texture."
  | Carrying (Text s) => Thrown (or_else s "Failed to generate texture.")
  | Carrying (Convertible s) => Thrown s
  | Carrying Unconvertible => Uncaught_TypeError
  end.

Definition MODEL_NAME : string := "gemini-2.5-flash-image".

Definition styleModifier (style : TextureStyle) : string :=
  match style with
  | PIXEL_ART =>
      "pixel art style, 8-bit graphics, sharp edges, low resolution aesthetic, minecraft block texture"
  | VOXEL =>
      "voxel art style, blocky, 3d rendered cubes look, isometric feel"
  | REALISTIC =>
      "photorealistic, high detail, 4k texture, pbr material"
  | CARTOON =>
      "cartoon style, cel shaded, vibrant colors, bold outlines"
  | CYBERPUNK =>
      "cyberpunk aesthetic, neon lights, metallic surfaces, high tech, grime, futuristic"
  | HAND_PAINTED =>
      "hand painted texture, stylized, blizzard style, brush strokes, watercolor"
  end.

Definition fullPrompt (prompt : string) (style : TextureStyle) : string :=
  "Seamless square texture of " ++ prompt ++ ". " ++ styleModifier style
  ++ ". Flat lighting, top-down view, no background context, full frame pattern.".

(** [part.inlineData && part.inlineData.data], when it holds. *)
Definition image_of (part : Part) : option string :=
  match inlineData part with
  | Some blob =>
      match data blob with
      | Some d => if truthy d then Some d else None
      | None => None
      end
  | None => None
  end.

(** The loop over the parts, leaving at the first image. *)
Fixpoint first_image (ps : list Part) (base64Image : string) : string :=
  match ps with
  | [] => base64Image
  | part :: rest =>
      match image_of part with
      | Some d => d
      | None => first_image rest base64Image
      end
  end.

Section Service.

(** The request to the model, by model name and prompt text, and the
    message of the engine's [TypeError] for a candidate without parts. *)
Variable generateContent : string -> string -> settled.
Variable TypeError_message : string.

(** The body of the [try] after the request: the image, or the message
    of the error thrown inside it, which the [catch] block receives. *)
Definition extract (response : Response) : string + string :=
  match candidates response with
  | Some (candidate :: _) =>
      match parts candidate with
      | Some ps =>
          let base64Image := first_image ps "" in
          if truthy base64Image then inl base64Image
          else inr "No image data found in response."
      | None => inr TypeError_message
      end
  | _ => inr "No image data found in response."
  end.

Definition generateTextureImage (API_KEY : option string)
    (prompt : string) (style : TextureStyle) : outcome :=
  match API_KEY with
  | None => Thrown "API Key is missing."
  | Some key =>
      if truthy key then
        match generateContent MODEL_NAME (fullPrompt prompt style) with
        | Resolved response =>
            match extract response with
            | inl base64Image => Returned ("data:image/png;base64," ++ base64Image)
            | inr message => rethrow (Carrying (Text message))
            end
        | Rejected error => rethrow error
        end
      else Thrown "API Key is missing."
  end.

End Service.

(** A response whose first candidate holds text and then two images,
    and one whose only image is in the second candidate. *)
Definition text_part (s : string) : Part :=
  {| text := Some s; inlineData := None |}.

Definition image_part (d : string) : Part :=
  {| text := None; inlineData := Some {| data := Some d |} |}.

Definition two_images : Response :=
  {| candidates :=
       Some [{| parts := Some [text_part "here"; image_part "QUJD"; image_part "REVG"] |}] |}.

Definition image_in_second : Response :=
  {| candidates :=
       Some [{| parts := Some [text_part "none"] |};
             {| parts := Some [image_part "QUJD"] |}] |}.

End Gemini.
(** * Integral numbers in binary64 *)
Local Open Scope Z_scope.

Lemma digits2_pos_size p : digits2_pos p = Pos.size p.
Proof. induction p; simpl; congruence. Qed.

Lemma Zdigits_log2 p : Zpos (digits2_pos p) = dig (Zpos p).
Proof.
  unfold dig. destruct p as [p|p|]; simpl; rewrite ?digits2_pos_size; lia.
Qed.

Lemma dig_bounds v : 0 < v -> 2 ^ (dig v - 1) <= v < 2 ^ dig v.
Proof.
  intros Hv. unfold dig. destruct (Z.log2_spec v Hv) as [H1 H2].
  replace (Z.log2 v + 1 - 1) with (Z.log2 v) by lia.
  replace (Z.log2 v + 1) with (Z.succ (Z.log2 v)) by lia. lia.
Qed.

Lemma dig_pos v : 0 < v -> 1 <= dig v.
Proof. intros Hv. unfold dig. pose proof (Z.log2_nonneg v). lia. Qed.

Lemma dig_le_53 v : 0 < v < 2 ^ 53 -> dig v <= 53.
Proof.
  intros [H0 H1]. unfold dig.
  assert (Z.log2 v < 53) by (apply Z.log2_lt_pow2; lia). lia.
Qed.

Lemma dig_mul_pow2 v k : 0 < v -> 0 <= k -> dig (v * 2 ^ k) = dig v + k.
Proof. intros. unfold dig. rewrite Z.log2_mul_pow2 by lia. lia. Qed.

Lemma Zpos_iter_xO m d : Zpos (Pos.iter xO m d) = Zpos m * 2 ^ Zpos d.
Proof.
  change (Pos.iter xO m d) with (shift_pos d m).
  rewrite shift_pos_correct. change (Z.pow_pos 2 d) with (2 ^ Zpos d). lia.
Qed.

Lemma iter_pos_nat {A} (f : A -> A) p x :
  SpecFloat.iter_pos f p x = Nat.iter (Pos.to_nat p) f x.
Proof.
  revert x. induction p as [p IH|p IH|]; intros x; simpl SpecFloat.iter_pos.
  - rewrite !IH, Pos2Nat.inj_xI.
    replace (S (2 * Pos.to_nat p)) with (Pos.to_nat p + (Pos.to_nat p + 1))%nat by lia.
    rewrite !Nat.iter_add. reflexivity.
  - rewrite !IH, Pos2Nat.inj_xO.
    replace (2 * Pos.to_nat p)%nat with (Pos.to_nat p + Pos.to_nat p)%nat by lia.
    rewrite Nat.iter_add. reflexivity.
  - reflexivity.
Qed.

Lemma shr_1_exact_nat n : forall q, 0 < q ->
  Nat.iter n shr_1 {| shr_m := q * 2 ^ Z.of_nat n; shr_r := false; shr_s := false |}
  = {| shr_m := q; shr_r := false; shr_s := false |}.
Proof.
  induction n as [|n IH]; intros q Hq.
  - simpl. rewrite Z.mul_1_r. reflexivity.
  - rewrite Nat.iter_succ_r.
    replace (q * 2 ^ Z.of_nat (S n)) with (Z.double (q * 2 ^ Z.of_nat n)).
    2:{ rewrite Nat2Z.inj_succ, Z.pow_succ_r by lia. rewrite Z.double_spec. ring. }
    assert (Hp : 0 < q * 2 ^ Z.of_nat n) by (apply Z.mul_pos_pos; lia).
    destruct (q * 2 ^ Z.of_nat n) as [|p|p] eqn:E; try lia.
    simpl. rewrite <- E. apply IH; assumption.
Qed.

Lemma shr_exact q e n : 0 < q -> 0 <= n ->
  shr {| shr_m := q * 2 ^ n; shr_r := false; shr_s := false |} e n
  = ({| shr_m := q; shr_r := false; shr_s := false |}, e + n).
Proof.
  intros Hq Hn. destruct n as [|p|p]; try lia.
  - simpl. rewrite Z.mul_1_r, Z.add_0_r. reflexivity.
  - unfold shr. rewrite iter_pos_nat.
    rewrite <- (positive_nat_Z p) at 1. rewrite shr_1_exact_nat by assumption.
    reflexivity.
Qed.

Lemma fexp_normal d : -1021 <= d -> fexp prec emax d = d - 53.
Proof.
  intros. unfold fexp, SpecFloat.emin, prec, emax.
  change IntDef.Z.max with Z.max. change IntDef.Z.sub with Z.sub.
  simpl. rewrite Z.max_l by lia. reflexivity.
Qed.

Lemma shr_fexp_53 m e :
  Zpos (digits2_pos m) = 53 -> -1074 <= e ->
  shr_fexp prec emax (Zpos m) e loc_Exact
  = ({| shr_m := Zpos m; shr_r := false; shr_s := false |}, e).
Proof.
  intros Hd He. unfold shr_fexp, Zdigits2.
  rewrite Hd, fexp_normal by lia.
  replace (53 + e - 53 - e) with 0 by lia. reflexivity.
Qed.

Lemma leb_emax e : e <= 971 -> (e <=? emax - prec) = true.
Proof. intros. apply Z.leb_le. unfold emax, prec. lia. Qed.

(** Rounding an integer that has at least 53 bits, the bits beyond the
    53 leading ones being zero. *)
Lemma binary_round_aux_int v k e :
  0 < v < 2 ^ 53 -> 0 <= k -> 53 <= dig v + k ->
  -1074 <= e + (dig v + k - 53) <= 971 ->
  exists m,
    binary_round_aux prec emax false (v * 2 ^ k) e loc_Exact
      = S754_finite false m (e + (dig v + k - 53))
    /\ Zpos m = v * 2 ^ (53 - dig v).
Proof.
  intros Hv Hk Hd He.
  pose proof (dig_pos v (proj1 Hv)) as Hd1.
  pose proof (dig_le_53 v Hv) as Hd2.
  assert (Hq : 0 < v * 2 ^ (53 - dig v)) by (apply Z.mul_pos_pos; lia).
  destruct (v * 2 ^ (53 - dig v)) as [|q|q] eqn:Eq; try lia.
  exists q. split; [|reflexivity].
  assert (Hdq : Zpos (digits2_pos q) = 53).
  { rewrite Zdigits_log2, <- Eq, dig_mul_pow2 by lia. lia. }
  set (n := dig v + k - 53) in *.
  assert (Hpq : v * 2 ^ k = Zpos q * 2 ^ n).
  { rewrite <- Eq, <- Z.mul_assoc, <- Z.pow_add_r by lia.
    f_equal. f_equal. lia. }
  assert (Hdp : dig (Zpos q * 2 ^ n) = 53 + n).
  { rewrite dig_mul_pow2, <- Zdigits_log2 by lia. lia. }
  rewrite Hpq.
  assert (Hp : 0 < Zpos q * 2 ^ n) by (apply Z.mul_pos_pos; lia).
  unfold binary_round_aux. unfold shr_fexp at 1.
  destruct (Zpos q * 2 ^ n) as [|p|p] eqn:Ep; try lia.
  unfold Zdigits2 at 1. rewrite Zdigits_log2, Hdp, fexp_normal by lia.
  replace (53 + n + e - 53 - e) with n by lia.
  unfold shr_record_of_loc. rewrite <- Ep, shr_exact by lia.
  cbn [shr_m shr_r shr_s loc_of_shr_record round_nearest_even].
  rewrite shr_fexp_53 by (assumption || lia).
  cbn [shr_m]. rewrite leb_emax by lia. reflexivity.
Qed.

(** Normalising an integer below [2^53], however it is scaled. *)
Lemma binary_normalize_int v k : 0 < v < 2 ^ 53 -> 0 <= k ->
  exists m,
    binary_normalize prec emax (v * 2 ^ k) (- k) false
      = S754_finite false m (dig v - 53)
    /\ Zpos m = v * 2 ^ (53 - dig v).
Proof.
  intros Hv Hk.
  assert (Hp : 0 < v * 2 ^ k) by (apply Z.mul_pos_pos; lia).
  pose proof (dig_pos v (proj1 Hv)) as Hd1.
  pose proof (dig_le_53 v Hv) as Hd2.
  assert (Hdk : dig (v * 2 ^ k) = dig v + k) by (apply dig_mul_pow2; lia).
  destruct (v * 2 ^ k) as [|p|p] eqn:Ep; try lia.
  unfold binary_normalize, binary_round.
  rewrite Zdigits_log2, Hdk, fexp_normal by lia.
  replace (dig v + k + - k - 53) with (dig v - 53) by lia.
  unfold shl_align.
  destruct (dig v - 53 - - k) as [|n|n] eqn:En.
  - (* no shift to the left is needed *)
    destruct (binary_round_aux_int v k (- k)) as (m & Hm & Hz); try lia.
    exists m. split; [|assumption].
    rewrite <- Ep, Hm. f_equal. lia.
  - destruct (binary_round_aux_int v k (- k)) as (m & Hm & Hz); try lia.
    exists m. split; [|assumption].
    rewrite <- Ep, Hm. f_equal. lia.
  - (* too short: shifted left to 53 bits *)
    destruct (binary_round_aux_int v (k + Zpos n) (dig v - 53))
      as (m & Hm & Hz); try lia.
    exists m. split; [|assumption].
    rewrite Zpos_iter_xO, <- Ep, <- Z.mul_assoc, <- Z.pow_add_r by lia.
    rewrite Hm. f_equal. lia.
Qed.

Lemma Prim2SF_of_int_0 : Prim2SF (JS.of_int 0) = S754_zero false.
Proof. reflexivity. Qed.

Lemma Prim2SF_of_int v : 0 < v < 2 ^ 53 ->
  exists m,
    Prim2SF (JS.of_int v) = S754_finite false m (dig v - 53)
    /\ Zpos m = v * 2 ^ (53 - dig v).
Proof.
  intros Hv. unfold JS.of_int.
  rewrite FloatAxioms.of_uint63_spec, Uint63.of_Z_spec.
  rewrite Z.mod_small.
  2:{ split; [lia|]. apply Z.lt_trans with (2 ^ 53); [lia|]. reflexivity. }
  destruct (binary_normalize_int v 0 Hv (Z.le_refl 0)) as (m & Hm & Hz).
  rewrite Z.pow_0_r, Z.mul_1_r in Hm. exists m. split; assumption.
Qed.

Lemma shl_align_val m e ez : ez <= e ->
  Zpos (fst (shl_align m e ez)) = Zpos m * 2 ^ (e - ez).
Proof.
  intros H. unfold shl_align.
  destruct (ez - e) as [|n|n] eqn:En; cbn [fst].
  - replace (e - ez) with 0 by lia. lia.
  - lia.
  - rewrite Zpos_iter_xO. f_equal. f_equal. lia.
Qed.

(** Adding integers below [2^53] is exact. *)
Lemma of_int_add a b : 0 <= a -> 0 <= b -> a + b < 2 ^ 53 ->
  (JS.of_int a + JS.of_int b)%float = JS.of_int (a + b).
Proof.
  intros Ha Hb Hab.
  destruct (Z.eq_dec a 0) as [->|Ha0].
  { apply Prim2SF_inj. rewrite FloatAxioms.add_spec, Prim2SF_of_int_0. simpl (0 + b).
    destruct (Z.eq_dec b 0) as [->|Hb0]; [reflexivity|].
    destruct (Prim2SF_of_int b) as (m & -> & _); [lia|reflexivity]. }
  destruct (Z.eq_dec b 0) as [->|Hb0].
  { apply Prim2SF_inj. rewrite FloatAxioms.add_spec, Prim2SF_of_int_0, Z.add_0_r.
    destruct (Prim2SF_of_int a) as (m & -> & _); [lia|reflexivity]. }
  apply Prim2SF_inj. rewrite FloatAxioms.add_spec.
  destruct (Prim2SF_of_int a) as (ma & -> & Hma); [lia|].
  destruct (Prim2SF_of_int b) as (mb & -> & Hmb); [lia|].
  destruct (Prim2SF_of_int (a + b)) as (mc & -> & Hmc); [lia|].
  pose proof (dig_pos a) as Da1. pose proof (dig_le_53 a) as Da2.
  pose proof (dig_pos b) as Db1. pose proof (dig_le_53 b) as Db2.
  unfold SF64add, SFadd. cbn [cond_Zopp].
  set (ez := Z.min (dig a - 53) (dig b - 53)).
  rewrite !shl_align_val by (unfold ez; lia).
  rewrite Hma, Hmb, <- !Z.mul_assoc, <- !Z.pow_add_r by (unfold ez; lia).
  replace (53 - dig a + (dig a - 53 - ez)) with (- ez) by lia.
  replace (53 - dig b + (dig b - 53 - ez)) with (- ez) by lia.
  rewrite <- Z.mul_add_distr_r.
  destruct (binary_normalize_int (a + b) (- ez)) as (m & Hm & Hz);
    [lia | unfold ez; lia |].
  rewrite Z.opp_involutive in Hm. rewrite Hm.
  f_equal. apply Pos2Z.inj. congruence.
Qed.

(** Comparing integers below [2^53]. *)
Lemma of_int_ltb a b : 0 <= a < 2 ^ 53 -> 0 <= b < 2 ^ 53 ->
  (JS.of_int a <? JS.of_int b)%float = (a <? b).
Proof.
  intros Ha Hb. rewrite FloatAxioms.ltb_spec. unfold SFltb.
  destruct (Z.eq_dec a 0) as [->|Ha0]; destruct (Z.eq_dec b 0) as [->|Hb0].
  - reflexivity.
  - rewrite Prim2SF_of_int_0.
    destruct (Prim2SF_of_int b) as (m & -> & _); [lia|]. simpl.
    symmetry. apply Z.ltb_lt. lia.
  - rewrite Prim2SF_of_int_0.
    destruct (Prim2SF_of_int a) as (m & -> & _); [lia|]. simpl.
    symmetry. apply Z.ltb_ge. lia.
  - destruct (Prim2SF_of_int a) as (ma & -> & Hma); [lia|].
    destruct (Prim2SF_of_int b) as (mb & -> & Hmb); [lia|].
    assert (Pa : 0 < a) by lia. assert (Pb : 0 < b) by lia.
    pose proof (dig_bounds a Pa) as Ba. pose proof (dig_bounds b Pb) as Bb.
    pose proof (dig_pos a Pa) as Da1. pose proof (dig_pos b Pb) as Db1.
    assert (Da2 : dig a <= 53) by (apply dig_le_53; lia).
    assert (Db2 : dig b <= 53) by (apply dig_le_53; lia).
    cbn [SFcompare].
    destruct (Z.compare_spec (dig a - 53) (dig b - 53)) as [E|E|E].
    + rewrite Pos.compare_cont_spec, Pos2Z.inj_compare, Hma, Hmb.
      replace (dig b) with (dig a) by lia.
      assert (Hp : 0 < 2 ^ (53 - dig a)) by (apply Z.pow_pos_nonneg; lia).
      destruct (Z.ltb_spec a b) as [L|L];
        destruct (Z.compare_spec (a * 2 ^ (53 - dig a)) (b * 2 ^ (53 - dig a)));
        try reflexivity; nia.
    + symmetry. apply Z.ltb_lt.
      assert (2 ^ dig a <= 2 ^ (dig b - 1)) by (apply Z.pow_le_mono_r; lia).
      lia.
    + symmetry. apply Z.ltb_ge.
      assert (2 ^ dig b <= 2 ^ (dig a - 1)) by (apply Z.pow_le_mono_r; lia).
      lia.
Qed.

Lemma valid_finite x s m e : Prim2SF x = S754_finite s m e ->
  dig (Zpos m) <= 53 /\ (e = -1074 \/ dig (Zpos m) = 53) /\ e <= 971.
Proof.
  intros E. pose proof (Prim2SF_valid x) as V. rewrite E in V.
  unfold SpecFloat.valid_binary, bounded, canonical_mantissa in V.
  apply andb_true_iff in V. destruct V as [V1 V2].
  apply Z.eqb_eq in V1. apply Z.leb_le in V2.
  rewrite Zdigits_log2 in V1. unfold fexp, SpecFloat.emin, prec, emax in *.
  change IntDef.Z.max with Z.max in V1. change IntDef.Z.sub with Z.sub in *.
  simpl in V2. simpl (3 - 1024 - 53) in V1. lia.
Qed.

Lemma is_nan_spec x : is_nan x = match Prim2SF x with S754_nan => true | _ => false end.
Proof.
  unfold is_nan. rewrite FloatAxioms.eqb_spec. unfold SFeqb.
  destruct (Prim2SF x) as [s|s| |s m e]; try (destruct s); cbn [SFcompare];
    try reflexivity;
    rewrite Z.compare_refl, Pcompare_refl; reflexivity.
Qed.

Lemma Prim2SF_one : Prim2SF 1%float = S754_finite false 4503599627370496 (-52).
Proof. reflexivity. Qed.

(** The three outcomes of [Math.max(1, v)]. *)
Lemma Math_max_1_cases v :
  (is_nan v = true /\ JS.Math_max 1%float v = nan)
  \/ ((1 <? v)%float = true /\ JS.Math_max 1%float v = v)
  \/ JS.Math_max 1%float v = 1%float.
Proof.
  unfold JS.Math_max. change (is_nan 1%float) with false. cbn [orb].
  destruct (is_nan v); [left; auto|].
  destruct (1 <? v)%float; [right; left; auto|].
  right; right. destruct (v <? 1)%float; reflexivity.
Qed.

Lemma stopper_stops s w : stopper s -> 0 <= w < 2 ^ 52 ->
  ((0 + s <? JS.of_int w))%float = false.
Proof.
  unfold stopper. intros Hs Hw. rewrite FloatAxioms.ltb_spec, FloatAxioms.add_spec. unfold SFltb.
  change (Prim2SF 0%float) with (S754_zero false).
  destruct (Z.eq_dec w 0) as [->|Hw0].
  - rewrite Prim2SF_of_int_0.
    destruct (Prim2SF s) as [sg|[]| |[] m e]; try contradiction; reflexivity.
  - destruct (Prim2SF_of_int w) as (mw & -> & _); [lia|].
    assert (dig w <= 52).
    { unfold dig. assert (Z.log2 w < 52) by (apply Z.log2_lt_pow2; lia). lia. }
    destruct (Prim2SF s) as [sg|[]| |[] m e]; try contradiction; try reflexivity.
    cbn [SF64add SFadd SFcompare].
    destruct (Z.compare_spec e (dig w - 53)); try reflexivity; lia.
Qed.

(** Every effective step is a positive integer up to [2^52] or ends the
    loop at once. *)
Lemma step_cases s :
  let st := JS.Math_max 1%float (JS.Math_floor s) in
  (exists n, 1 <= n <= 2 ^ 52 /\ st = JS.of_int n) \/ stopper st.
Proof.
  cbv zeta.
  destruct (Math_max_1_cases (JS.Math_floor s)) as [[_ ->]|[[Hlt ->]| ->]].
  - right. exact I.
  - rewrite FloatAxioms.ltb_spec, Prim2SF_one in Hlt. unfold SFltb in Hlt.
    unfold JS.Math_floor in *.
    destruct (Prim2SF s) as [sg|sg| |sg m e] eqn:E.
    + rewrite E in Hlt. discriminate.
    + rewrite E in Hlt. right. unfold stopper. rewrite E.
      destruct sg; [discriminate|exact I].
    + rewrite E in Hlt. discriminate.
    + destruct (Z.leb_spec 0 e) as [He|He].
      * rewrite E in Hlt. right. unfold stopper. rewrite E.
        destruct sg; [discriminate|assumption].
      * destruct (valid_finite _ _ _ _ E) as (Hd & _ & _).
        assert (Hm : Zpos m < 2 ^ 53).
        { pose proof (dig_bounds (Zpos m) (Pos2Z.is_pos m)) as [_ B].
          apply Z.lt_le_trans with (1 := B). apply Z.pow_le_mono_r; lia. }
        set (q := Z.shiftr (Zpos m) (- e)) in *.
        assert (Hq : 0 <= q /\ 2 * q <= Zpos m).
        { unfold q. rewrite Z.shiftr_div_pow2 by lia.
          assert (2 <= 2 ^ (- e)).
          { change 2 with (2 ^ 1) at 1. apply Z.pow_le_mono_r; lia. }
          assert (0 <= Zpos m / 2 ^ (- e)) by (apply Z.div_pos; lia).
          split; [assumption|].
          pose proof (Z.mul_div_le (Zpos m) (2 ^ (- e))). nia. }
        destruct sg.
        -- exfalso.
           assert (F : forall z, 0 <= z < 2 ^ 53 ->
                       SFcompare (S754_finite false 4503599627370496 (-52))
                         (Prim2SF (- JS.of_int z)) = Some Gt).
           { intros z Hz. rewrite FloatAxioms.opp_spec.
             destruct (Z.eq_dec z 0) as [->|Hz0]; [reflexivity|].
             destruct (Prim2SF_of_int z) as (mz & -> & _); [lia|reflexivity]. }
           destruct (Z.shiftl q (- e) =? Zpos m);
             rewrite F in Hlt by lia; discriminate.
        -- left. exists q.
           assert (L : (1 <? JS.of_int q)%float = true).
           { rewrite FloatAxioms.ltb_spec, Prim2SF_one. unfold SFltb. exact Hlt. }
           change 1%float with (JS.of_int 1) in L.
           rewrite of_int_ltb in L by lia. apply Z.ltb_lt in L.
           split; [lia|reflexivity].
  - left. exists 1. split; [lia|reflexivity].
Qed.

(** ** The loops *)

Lemma for_loop_indices {A} (f : JS.number -> A -> A) fuel bound step : forall i acc,
  for_loop fuel bound step (fun i a => Some (f i a)) i acc
  = option_map (fun l => fold_left (fun a i => f i a) l acc)
      (loop_indices fuel bound step i).
Proof.
  induction fuel as [|fuel IH]; intros i acc; simpl.
  - destruct (i <? bound)%float; reflexivity.
  - destruct (i <? bound)%float; [|reflexivity].
    rewrite IH. destruct (loop_indices fuel bound step (i + step)%float); reflexivity.
Qed.

Lemma for_loop_ext {A} (f g : JS.number -> A -> option A) fuel bound step :
  (forall i a, f i a = g i a) ->
  forall i acc, for_loop fuel bound step f i acc = for_loop fuel bound step g i acc.
Proof.
  intros E. induction fuel as [|fuel IH]; intros i acc; simpl.
  - reflexivity.
  - destruct (i <? bound)%float; [|reflexivity].
    rewrite E. destruct (g i acc); [apply IH|reflexivity].
Qed.

Lemma loop_indices_int w n : 0 <= w < 2 ^ 32 -> 1 <= n <= 2 ^ 52 ->
  forall c fuel a,
    0 <= a < 2 ^ 53 -> (c <= fuel)%nat ->
    (c = O -> w <= a) ->
    (c <> O -> a + (Z.of_nat c - 1) * n < w <= a + Z.of_nat c * n) ->
    loop_indices fuel (JS.of_int w) (JS.of_int n) (JS.of_int a)
    = Some (map JS.of_int (stride_from c a n)).
Proof.
  intros Hw Hn. induction c as [|c IH]; intros fuel a Ha Hf H0 H1.
  - assert (L : (JS.of_int a <? JS.of_int w)%float = false).
    { rewrite of_int_ltb by lia. apply Z.ltb_ge. auto. }
    destruct fuel; simpl; rewrite L; reflexivity.
  - destruct fuel as [|fuel]; [lia|].
    assert (Haw : a < w) by (specialize (H1 ltac:(discriminate)); nia).
    simpl. rewrite of_int_ltb, (proj2 (Z.ltb_lt _ _) Haw) by lia.
    rewrite of_int_add by lia.
    rewrite (IH fuel (a + n)); [reflexivity|lia|lia| |].
    + intros ->. specialize (H1 ltac:(discriminate)).
      change (Z.of_nat 1) with 1 in H1. lia.
    + intros Hc. specialize (H1 ltac:(discriminate)).
      rewrite Nat2Z.inj_succ in H1. nia.
Qed.

Lemma loop_indices_stopper w s fuel : 0 <= w < 2 ^ 32 -> stopper s ->
  (Z.to_nat w <= fuel)%nat ->
  loop_indices fuel (JS.of_int w) s 0%float
  = Some (if 0 <? w then [0%float] else []).
Proof.
  intros Hw Hs Hf.
  assert (L : (0 <? JS.of_int w)%float = (0 <? w)).
  { change 0%float with (JS.of_int 0). apply of_int_ltb; lia. }
  assert (Hstop : (0 + s <? JS.of_int w)%float = false)
    by (apply stopper_stops; [assumption|lia]).
  destruct (Z.ltb_spec 0 w) as [P|P].
  - destruct fuel as [|fuel]; [lia|]. simpl. rewrite L.
    destruct fuel; simpl; rewrite Hstop; reflexivity.
  - destruct fuel; simpl; rewrite L; reflexivity.
Qed.

Lemma to_index_of_int n : 0 <= n < 2 ^ 53 -> JS.to_index (JS.of_int n) = Some n.
Proof.
  intros Hn. destruct (Z.eq_dec n 0) as [->|Hn0]; [reflexivity|].
  destruct (Prim2SF_of_int n) as (m & E & Hm); [lia|].
  pose proof (dig_le_53 n ltac:(lia)) as Hd.
  unfold JS.to_index. rewrite E.
  destruct (Z.leb_spec 0 (dig n - 53)) as [L|L].
  - rewrite Z.shiftl_mul_pow2, Hm by lia.
    replace (53 - dig n) with 0 by lia. replace (dig n - 53) with 0 by lia.
    f_equal. lia.
  - assert (P : 0 < 2 ^ (53 - dig n)) by (apply Z.pow_pos_nonneg; lia).
    replace (- (dig n - 53)) with (53 - dig n) by lia.
    rewrite Z.shiftr_div_pow2, Hm, Z.div_mul by lia.
    rewrite Z.shiftl_mul_pow2, Z.eqb_refl by lia. reflexivity.
Qed.

Lemma to_index_stopper s : stopper s ->
  match JS.to_index s with Some N => 2 ^ 52 <= N | None => True end.
Proof.
  unfold stopper, JS.to_index. intros Hs.
  destruct (Prim2SF s) as [sg|[]| |[] m e] eqn:E; try contradiction; try exact I.
  rewrite (proj2 (Z.leb_le 0 e) Hs), Z.shiftl_mul_pow2 by assumption.
  destruct (valid_finite _ _ _ _ E) as (_ & [->|Hd] & _); [lia|].
  pose proof (dig_bounds (Zpos m) (Pos2Z.is_pos m)) as [B _].
  rewrite Hd in B. change (53 - 1) with 52 in B.
  assert (0 < 2 ^ e) by (apply Z.pow_pos_nonneg; lia).
  nia.
Qed.

Lemma multiples_big N w : 0 <= w <= N -> 1 <= N ->
  multiples N w = if 0 <? w then [0] else [].
Proof.
  intros Hw HN. unfold multiples.
  destruct (Z.ltb_spec 0 w) as [P|P].
  - replace ((w + N - 1) / N) with 1; [reflexivity|].
    apply Z.div_unique with (r := w - 1); lia.
  - replace ((w + N - 1) / N) with 0; [reflexivity|].
    symmetry. apply Z.div_small. lia.
Qed.

(** The indices a loop of the sampler runs through, for every step the
    clamp can produce, provided the fuel covers the bound. *)
Lemma loop_indices_axis w s fuel : 0 <= w < 2 ^ 32 -> (Z.to_nat w <= fuel)%nat ->
  loop_indices fuel (JS.of_int w) (JS.Math_max 1%float (JS.Math_floor s)) 0%float
  = Some (axis w (JS.Math_max 1%float (JS.Math_floor s))).
Proof.
  intros Hw Hf.
  destruct (step_cases s) as [(n & Hn & ->)|Hs].
  - unfold axis, axisZ. rewrite to_index_of_int by lia.
    change 0%float with (JS.of_int 0). unfold multiples.
    set (c := (w + n - 1) / n).
    assert (Hc : c * n <= w + n - 1 < c * n + n).
    { unfold c. pose proof (Z.div_mod (w + n - 1) n ltac:(lia)).
      pose proof (Z.mod_pos_bound (w + n - 1) n ltac:(lia)). lia. }
    assert (Hc0 : 0 <= c) by (unfold c; apply Z.div_pos; lia).
    assert (Hcw : c <= w) by nia.
    apply loop_indices_int; lia.
  - rewrite loop_indices_stopper by assumption.
    unfold axis, axisZ. pose proof (to_index_stopper _ Hs) as HN.
    destruct (JS.to_index _) as [N|]; [rewrite multiples_big by lia|];
      destruct (0 <? w); reflexivity.
Qed.

Lemma loop_indices_step w st fuel : 0 <= w < 2 ^ 32 -> (Z.to_nat w <= fuel)%nat ->
  loop_indices fuel (JS.of_int w) (step st) 0%float = Some (axis w (step st)).
Proof. apply loop_indices_axis. Qed.

(** ** The sampler as a scan of the visited coordinates *)

Section ScanFacts.
Variable THREE_Color : string -> rgb.
Variable img : ImageData.
Variable st : AppState.

Lemma visit_emit xy acc :
  visit THREE_Color img st (snd xy) (fst xy) acc
  = if retained img st xy
    then {| pos := pos acc ++ position img st xy; col := col acc ++ colour THREE_Color img st xy |}
    else acc.
Proof.
  destruct xy as [x y]. unfold visit, retained, alpha, pixel, position, colour, pixel.
  cbn [fst snd].
  destruct (transparencyThreshold st <=? _)%float; [|reflexivity].
  destruct (applyColorMode _ _ _ _ _ _ _) as [[cr cg] cb]. reflexivity.
Qed.

Lemma scan_emit l : forall acc,
  scan THREE_Color img st l acc
  = {| pos := pos acc ++ flat_map (position img st) (filter (retained img st) l);
       col := col acc ++ flat_map (colour THREE_Color img st) (filter (retained img st) l) |}.
Proof.
  induction l as [|xy l IH]; intros acc.
  - simpl. rewrite !app_nil_r. destruct acc; reflexivity.
  - change (scan THREE_Color img st (xy :: l) acc)
      with (scan THREE_Color img st l
              (visit THREE_Color img st (snd xy) (fst xy) acc)).
    rewrite IH, visit_emit. cbn [filter].
    destruct (retained img st xy); [|reflexivity].
    cbn [pos col flat_map]. rewrite <- !app_assoc. reflexivity.
Qed.

Lemma scan_row_axis fuel y acc :
  0 <= width img < 2 ^ 32 -> (Z.to_nat (width img) <= fuel)%nat ->
  scan_row THREE_Color img st fuel y acc
  = Some (scan THREE_Color img st (map (fun x => (x, y)) (axis (width img) (step st))) acc).
Proof.
  intros Hw Hf. unfold scan_row.
  rewrite (for_loop_indices (visit THREE_Color img st y)).
  rewrite loop_indices_step by assumption. cbn [option_map]. f_equal.
  unfold scan. generalize (axis (width img) (step st)).
  intros l. revert acc. induction l as [|x l IH]; intros acc; [reflexivity|].
  simpl. apply IH.
Qed.

(** With fuel for the longer side of the image, the pass returns the
    scan of the visited coordinates. *)
Lemma sample_fuel_visited fuel :
  image_ok img ->
  (Z.to_nat (Z.max (width img) (height img)) <= fuel)%nat ->
  sample_fuel THREE_Color img st fuel = Some (scan THREE_Color img st (visited img st) empty_particles).
Proof.
  intros [Hw Hh] Hf. unfold sample_fuel.
  rewrite (for_loop_ext _
             (fun y acc => Some (scan THREE_Color img st (map (fun x => (x, y)) (axis (width img) (step st))) acc))).
  2:{ intros y acc. apply scan_row_axis; [assumption|lia]. }
  rewrite (for_loop_indices
             (fun y acc => scan THREE_Color img st (map (fun x => (x, y)) (axis (width img) (step st))) acc)).
  rewrite loop_indices_step by (assumption || lia).
  cbn [option_map]. f_equal. unfold visited.
  change {| pos := []; col := [] |} with empty_particles.
  generalize (axis (height img) (step st)) empty_particles.
  intros l. induction l as [|y l IH]; intros acc; [reflexivity|].
  cbn [fold_left flat_map]. rewrite IH. unfold scan. rewrite fold_left_app.
  reflexivity.
Qed.

Lemma sample_visited :
  image_ok img ->
  sample THREE_Color img st = Some (scan THREE_Color img st (visited img st) empty_particles).
Proof. intros H. apply sample_fuel_visited; [assumption|lia]. Qed.

End ScanFacts.

(** ** Facts about [multiples] *)

Lemma stride_from_In c n : forall a x,
  In x (stride_from c a n) <-> exists k, 0 <= k < Z.of_nat c /\ x = a + k * n.
Proof.
  induction c as [|c IH]; intros a x.
  - simpl. split; [contradiction|]. intros (k & Hk & _). lia.
  - cbn [stride_from In]. rewrite IH. split.
    + intros [<-|(k & Hk & ->)].
      * exists 0. lia.
      * exists (k + 1). lia.
    + intros (k & Hk & ->). destruct (Z.eq_dec k 0) as [->|Hk0].
      * left. lia.
      * right. exists (k - 1). lia.
Qed.

Lemma stride_from_sorted c n : 0 < n -> forall a,
  StronglySorted Z.lt (stride_from c a n).
Proof.
  intros Hn. induction c as [|c IH]; intros a; simpl; constructor.
  - apply IH.
  - apply Forall_forall. intros x Hx. apply stride_from_In in Hx.
    destruct Hx as (k & Hk & ->). nia.
Qed.

Lemma multiples_In n bound x : 1 <= n -> 0 <= bound ->
  In x (multiples n bound) <-> 0 <= x < bound /\ x mod n = 0.
Proof.
  intros Hn Hb. unfold multiples. rewrite stride_from_In.
  set (c := (bound + n - 1) / n).
  assert (Hc : c * n <= bound + n - 1 < c * n + n).
  { unfold c. pose proof (Z.div_mod (bound + n - 1) n ltac:(lia)).
    pose proof (Z.mod_pos_bound (bound + n - 1) n ltac:(lia)). lia. }
  assert (Hc0 : 0 <= c) by (unfold c; apply Z.div_pos; lia).
  rewrite Z2Nat.id by assumption. split.
  - intros (k & Hk & ->). rewrite Z.add_0_l, Z.mod_mul by lia. nia.
  - intros [Hx Hm]. exists (x / n).
    pose proof (Z.div_mod x n ltac:(lia)) as D. rewrite Hm in D.
    assert (0 <= x / n) by (apply Z.div_pos; lia).
    split; [nia|lia].
Qed.

Lemma multiples_sorted n bound : 1 <= n -> StronglySorted Z.lt (multiples n bound).
Proof. intros Hn. apply stride_from_sorted. lia. Qed.

Lemma step_index st n : JS.to_index (step st) = Some n -> 1 <= n.
Proof.
  unfold step. intros H.
  destruct (step_cases (samplingStep st)) as [(k & Hk & E)|Hs].
  - rewrite E, to_index_of_int in H by lia. injection H as <-. lia.
  - pose proof (to_index_stopper _ Hs) as HN. rewrite H in HN. lia.
Qed.

Lemma Math_max_1_nan v :
  is_nan (JS.Math_max 1%float v) = is_nan v.
Proof.
  unfold JS.Math_max. change (is_nan 1%float) with false. cbn [orb].
  destruct (is_nan v) eqn:E; [reflexivity|].
  destruct (1 <? v)%float; [assumption|].
  destruct (v <? 1)%float; reflexivity.
Qed.

Lemma is_nan_of_int z : 0 <= z < 2 ^ 53 -> is_nan (JS.of_int z) = false.
Proof.
  intros Hz. rewrite is_nan_spec.
  destruct (Z.eq_dec z 0) as [->|Hz0]; [reflexivity|].
  destruct (Prim2SF_of_int z) as (m & -> & _); [lia|reflexivity].
Qed.

Lemma is_nan_opp x : is_nan (- x)%float = is_nan x.
Proof. rewrite !is_nan_spec, FloatAxioms.opp_spec. destruct (Prim2SF x); reflexivity. Qed.

Lemma floor_quotient x s m e : Prim2SF x = S754_finite s m e -> e < 0 ->
  0 <= Z.shiftr (Zpos m) (- e) /\ Z.shiftr (Zpos m) (- e) + 1 < 2 ^ 53.
Proof.
  intros E He. destruct (valid_finite _ _ _ _ E) as (Hd & _ & _).
  assert (Hm : Zpos m < 2 ^ 53).
  { pose proof (dig_bounds (Zpos m) (Pos2Z.is_pos m)) as [_ B].
    apply Z.lt_le_trans with (1 := B). apply Z.pow_le_mono_r; lia. }
  rewrite Z.shiftr_div_pow2 by lia.
  assert (2 <= 2 ^ (- e)).
  { change 2 with (2 ^ 1) at 1. apply Z.pow_le_mono_r; lia. }
  assert (0 <= Zpos m / 2 ^ (- e)) by (apply Z.div_pos; lia).
  pose proof (Z.mul_div_le (Zpos m) (2 ^ (- e)) ltac:(lia)). nia.
Qed.

Lemma is_nan_floor x : is_nan (JS.Math_floor x) = is_nan x.
Proof.
  unfold JS.Math_floor. destruct (Prim2SF x) as [sg|sg| |sg m e] eqn:E; try reflexivity.
  destruct (Z.leb_spec 0 e) as [He|He]; [reflexivity|].
  destruct (floor_quotient _ _ _ _ E He) as [Q0 Q1].
  rewrite (is_nan_spec x), E.
  destruct sg; [destruct (_ =? _)|]; rewrite ?is_nan_opp; apply is_nan_of_int; lia.
Qed.

Lemma ltb_leb x y : (x <? y)%float = true -> (x <=? y)%float = true.
Proof.
  rewrite FloatAxioms.ltb_spec, FloatAxioms.leb_spec. unfold SFltb, SFleb.
  destruct (SFcompare _ _) as [[]|]; congruence.
Qed.

Lemma leb_nan_r x y : is_nan y = true -> (x <=? y)%float = false.
Proof.
  rewrite is_nan_spec, FloatAxioms.leb_spec. unfold SFleb.
  destruct (Prim2SF y); try discriminate.
  destruct (Prim2SF x); reflexivity.
Qed.

(** The clamp of the step: at least 1 exactly when the configured step
    is a number. *)
Lemma step_clamped st :
  (1 <=? step st)%float = negb (is_nan (samplingStep st)).
Proof.
  unfold step. rewrite <- is_nan_floor.
  destruct (Math_max_1_cases (JS.Math_floor (samplingStep st))) as [[N ->]|[[L ->]| E]].
  - rewrite N. reflexivity.
  - rewrite (ltb_leb _ _ L).
    destruct (is_nan _) eqn:N; [|reflexivity].
    rewrite FloatAxioms.ltb_spec in L. rewrite is_nan_spec in N. unfold SFltb in L.
    destruct (Prim2SF (JS.Math_floor _)); discriminate.
  - pose proof (Math_max_1_nan (JS.Math_floor (samplingStep st))) as N.
    rewrite E in N. rewrite <- N, E. reflexivity.
Qed.

(** ** Exact products *)

Lemma dig_lower v j : 0 < v -> 2 ^ j <= v -> j + 1 <= dig v.
Proof.
  intros Hv H. unfold dig.
  destruct (Z.le_gt_cases 0 j) as [Hj|Hj].
  - apply Z.log2_le_pow2 in H; lia.
  - pose proof (Z.log2_nonneg v). lia.
Qed.

(** Multiplying integers is exact while the product stays below
    [2^53]. *)
Lemma of_int_mul a b : 0 <= a < 2 ^ 53 -> 0 <= b < 2 ^ 53 -> a * b < 2 ^ 53 ->
  (JS.of_int a * JS.of_int b)%float = JS.of_int (a * b).
Proof.
  intros Ha Hb Hab. apply Prim2SF_inj. rewrite FloatAxioms.mul_spec.
  destruct (Z.eq_dec a 0) as [->|Ha0].
  { rewrite Z.mul_0_l, Prim2SF_of_int_0.
    destruct (Z.eq_dec b 0) as [->|Hb0]; [reflexivity|].
    destruct (Prim2SF_of_int b) as (m & -> & _); [lia|reflexivity]. }
  destruct (Z.eq_dec b 0) as [->|Hb0].
  { rewrite Z.mul_0_r, Prim2SF_of_int_0.
    destruct (Prim2SF_of_int a) as (m & -> & _); [lia|reflexivity]. }
  assert (Pa : 0 < a) by lia. assert (Pb : 0 < b) by lia.
  destruct (Prim2SF_of_int a) as (ma & -> & Hma); [lia|].
  destruct (Prim2SF_of_int b) as (mb & -> & Hmb); [lia|].
  destruct (Prim2SF_of_int (a * b)) as (mc & -> & Hmc); [nia|].
  pose proof (dig_bounds a Pa) as Ba. pose proof (dig_bounds b Pb) as Bb.
  pose proof (dig_pos a Pa) as Da1. pose proof (dig_pos b Pb) as Db1.
  pose proof (dig_le_53 a ltac:(lia)) as Da2.
  pose proof (dig_le_53 b ltac:(lia)) as Db2.
  assert (Dab : dig a + dig b - 1 <= dig (a * b)).
  { replace (dig a + dig b - 1) with ((dig a - 1 + (dig b - 1)) + 1) by lia.
    apply dig_lower; [nia|]. rewrite Z.pow_add_r by lia. nia. }
  unfold SF64mul, SFmul. cbn [xorb].
  rewrite Pos2Z.inj_mul, Hma, Hmb.
  replace (a * 2 ^ (53 - dig a) * (b * 2 ^ (53 - dig b)))
    with (a * b * 2 ^ (106 - dig a - dig b)).
  2:{ replace (106 - dig a - dig b) with ((53 - dig a) + (53 - dig b)) by lia.
      rewrite Z.pow_add_r by lia. ring. }
  destruct (binary_round_aux_int (a * b) (106 - dig a - dig b)
              (dig a - 53 + (dig b - 53))) as (m & Hm & Hz); try nia.
  { pose proof (dig_le_53 (a * b) ltac:(nia)). lia. }
  rewrite Hm. f_equal; [|lia]. apply Pos2Z.inj. congruence.
Qed.

(** ** The pixel behind each visited coordinate *)

Lemma get_u8_of_int bytes n : 0 <= n < 2 ^ 53 ->
  JS.get_u8 bytes (JS.of_int n) = byte_at bytes n.
Proof.
  intros Hn. unfold JS.get_u8, byte_at. rewrite to_index_of_int by assumption.
  reflexivity.
Qed.

(** For an image of fewer than [2^53] bytes the index arithmetic of the
    sampler is exact: at column [a] of row [b] it reads the four bytes
    from offset [4 * (b * w + a)]. *)
Lemma pixel_row_major img a b :
  0 <= a < width img -> 0 <= b < height img ->
  4 * width img * height img < 2 ^ 53 ->
  pixel img (JS.of_int a) (JS.of_int b) = rgba_at img (a, b).
Proof.
  intros Ha Hb Hsize. unfold pixel, rgba_at. cbn [fst snd].
  set (w := width img) in *. set (h := height img) in *.
  assert (Hbw : b * w + a < w * h) by nia.
  assert (Hbw0 : 0 <= b * w) by nia.
  rewrite of_int_mul by nia.
  rewrite of_int_add by nia.
  change 4%float with (JS.of_int 4). rewrite of_int_mul by nia.
  change 1%float with (JS.of_int 1). change 2%float with (JS.of_int 2).
  change 3%float with (JS.of_int 3).
  rewrite !of_int_add by nia.
  rewrite !get_u8_of_int by nia.
  replace ((b * w + a) * 4) with (4 * (b * w + a)) by ring. reflexivity.
Qed.

Lemma axisZ_In bound st a : 0 <= bound ->
  In a (axisZ bound (step st)) -> 0 <= a < bound.
Proof.
  intros Hb. unfold axisZ. destruct (JS.to_index (step st)) as [n|] eqn:E.
  - pose proof (step_index _ _ E) as Hn. intros I.
    apply multiples_In in I; lia.
  - destruct (Z.ltb_spec 0 bound); simpl; intros I; [|contradiction].
    destruct I as [<-|[]]. lia.
Qed.

Lemma cells_In img st a b : image_ok img ->
  In (a, b) (cells img st) -> 0 <= a < width img /\ 0 <= b < height img.
Proof.
  intros [Hw Hh] H. unfold cells in H. apply in_flat_map in H.
  destruct H as (b' & Hb & H). apply in_map_iff in H.
  destruct H as (a' & [= <- <-] & Ha).
  split; eapply axisZ_In; try eassumption; lia.
Qed.

Lemma visited_cells img st : visited img st = map as_numbers (cells img st).
Proof.
  unfold visited, cells, axis.
  induction (axisZ (height img) (step st)) as [|b l IH]; [reflexivity|].
  cbn [map flat_map]. rewrite map_app, IH, !map_map. reflexivity.
Qed.

(** Whether a visited cell is retained is decided by its alpha byte. *)
Lemma retained_cells img st : image_ok img ->
  4 * width img * height img < 2 ^ 53 ->
  filter (retained img st) (map as_numbers (cells img st))
  = map as_numbers
      (filter (fun ab => (transparencyThreshold st <=? alpha_at img ab)%float)
         (cells img st)).
Proof.
  intros Hok Hsize. pose proof (cells_In img st) as R.
  induction (cells img st) as [|[a b] l IH]; [reflexivity|].
  cbn [map filter].
  destruct (R a b Hok (or_introl eq_refl)) as [Ha Hb].
  rewrite IH by (intros a' b' H' I; apply R; [assumption|right; assumption]).
  change (as_numbers (a, b)) with (JS.of_int a, JS.of_int b).
  unfold retained at 1, alpha, alpha_at. cbn [fst snd].
  rewrite pixel_row_major by assumption.
  destruct (_ <=? _)%float; reflexivity.
Qed.

Lemma flat_map_map {A B C : Type} (f : B -> list C) (g : A -> B) (l : list A) :
  flat_map f (map g l) = flat_map (fun x => f (g x)) l.
Proof. induction l as [|x l IH]; simpl; [reflexivity|]. rewrite IH. reflexivity. Qed.
Local Open Scope float_scope.

(** ** The claims *)

(** C2, as stated, fails: with the initial [particleSize] 1.5 and
    [zExtrusion] 400 the single point of the 1x1 white image is not at
    the origin. *)
Lemma C2_single_pixel_not_at_origin :
  exists cloud,
    sample white_tint white_pixel (scenario 1.5 400) = Some cloud
    /\ pos cloud <> [0; 0; 0].
Proof.
  eexists. split; [vm_compute; reflexivity|].
  cbn [pos]. intros H.
  apply (f_equal (fun l => is_zero (nth 2 l 0))) in H.
  vm_compute in H. discriminate.
Qed.

(** C2, amended: for the 1x1 opaque white image with step 1, threshold
    0, mode ORIGINAL, brightness 1 and white tint, the pass emits exactly
    one point; its position is
    [(-0.5 * particleSize * 0.02, 0.5 * particleSize * 0.02,
      1 * zExtrusion * 0.02)] and its colour is [(1, 1, 1)]. *)
Theorem C2_single_pixel (THREE_Color : string -> rgb) (ps ze : JS.number) :
  sample THREE_Color white_pixel (scenario ps ze)
  = Some {| pos := [(-0.5) * ps * 0.02; 0.5 * ps * 0.02; 1 * ze * 0.02];
            col := [1; 1; 1] |}.
Proof. vm_compute. reflexivity. Qed.

(** C3: every retained pixel in column [a] of row [b], with channels
    [(r, g, b)], appends the position
    [((x - W/2) * particleSize * 0.02, -(y - H/2) * particleSize * 0.02,
      (r+g+b)/(3*255) * zExtrusion * 0.02)], where [x] and [y] are [a] and
    [b] as numbers, and nothing else enters the position array. *)
Theorem C3_position_formula (THREE_Color : string -> rgb)
    (img : ImageData) (st : AppState) :
  image_ok img ->
  (4 * width img * height img < 2 ^ 53)%Z ->
  exists cloud,
    sample THREE_Color img st = Some cloud
    /\ pos cloud
       = flat_map
           (fun ab : Z * Z =>
              let x := JS.of_int (fst ab) in
              let y := JS.of_int (snd ab) in
              let '(r, g, b, a) := rgba_at img ab in
              if transparencyThreshold st <=? a then
                [(x - JS.of_int (width img) / 2) * particleSize st * 0.02;
                 - (y - JS.of_int (height img) / 2) * particleSize st * 0.02;
                 (r + g + b) / (3 * 255) * zExtrusion st * 0.02]
              else [])
           (cells img st).
Proof.
  intros Hok Hsize. eexists. split; [apply sample_visited; assumption|].
  rewrite scan_emit, visited_cells. cbn [pos empty_particles app].
  pose proof (cells_In img st) as R.
  induction (cells img st) as [|[a b] l IH]; [reflexivity|].
  destruct (R a b Hok (or_introl eq_refl)) as [Ha Hb].
  pose proof (pixel_row_major img a b Ha Hb Hsize) as P.
  cbn [map filter flat_map fst snd].
  rewrite <- IH by (intros a' b' H' I; apply R; [assumption|right; assumption]).
  change (as_numbers (a, b)) with (JS.of_int a, JS.of_int b).
  unfold retained at 1, alpha. cbn [fst snd]. rewrite P.
  destruct (rgba_at img (a, b)) as [[[r g] bl] al] eqn:Q. cbn [snd].
  destruct (transparencyThreshold st <=? al); [|reflexivity].
  cbn [flat_map]. unfold position at 1. rewrite P. reflexivity.
Qed.

Lemma C3_position_formula_witness :
  exists cloud,
    sample white_tint white_pixel defaults = Some cloud
    /\ pos cloud
       = flat_map
           (fun ab : Z * Z =>
              let x := JS.of_int (fst ab) in
              let y := JS.of_int (snd ab) in
              let '(r, g, b, a) := rgba_at white_pixel ab in
              if transparencyThreshold defaults <=? a then
                [(x - JS.of_int (width white_pixel) / 2) * particleSize defaults * 0.02;
                 - (y - JS.of_int (height white_pixel) / 2) * particleSize defaults * 0.02;
                 (r + g + b) / (3 * 255) * zExtrusion defaults * 0.02]
              else [])
           (cells white_pixel defaults).
Proof.
  apply (C3_position_formula white_tint white_pixel defaults).
  - unfold image_ok; simpl; lia.
  - reflexivity.
Defined.

(** C4: the points of the cloud are, in scan order, exactly the visited
    pixels whose alpha byte is at least the threshold; each of them gives
    one position triple and one colour triple, and a visited pixel with
    a smaller alpha gives none.  [alpha_at img (a, b)] is the byte at
    offset [4 * (b * w + a) + 3] of the buffer. *)
Theorem C4_alpha_filter (THREE_Color : string -> rgb)
    (img : ImageData) (st : AppState) :
  image_ok img ->
  (4 * width img * height img < 2 ^ 53)%Z ->
  exists cloud,
    sample THREE_Color img st = Some cloud
    /\ let kept :=
         filter (fun ab => transparencyThreshold st <=? alpha_at img ab)
           (cells img st) in
       pos cloud = flat_map (fun ab => position img st (as_numbers ab)) kept
       /\ col cloud
          = flat_map (fun ab => colour THREE_Color img st (as_numbers ab)) kept
       /\ (forall ab, List.length (position img st (as_numbers ab)) = 3%nat)
       /\ (forall ab,
             List.length (colour THREE_Color img st (as_numbers ab)) = 3%nat).
Proof.
  intros Hok Hsize. eexists. split; [apply sample_visited; assumption|].
  cbv zeta. rewrite scan_emit. cbn [pos col empty_particles app].
  rewrite visited_cells, retained_cells, !flat_map_map by assumption.
  split; [reflexivity|]. split; [reflexivity|]. split.
  - intros [a b]. unfold position, as_numbers. cbn [fst snd].
    destruct (pixel img (JS.of_int a) (JS.of_int b)) as [[[r g] bl] al].
    reflexivity.
  - intros [a b]. unfold colour, as_numbers. cbn [fst snd].
    destruct (pixel img (JS.of_int a) (JS.of_int b)) as [[[r g] bl] al].
    destruct (applyColorMode _ _ _ _ _ _ _) as [[cr cg] cb]. reflexivity.
Qed.

Lemma C4_alpha_filter_witness :
  exists cloud,
    sample white_tint white_pixel defaults = Some cloud
    /\ let kept :=
         filter (fun ab => transparencyThreshold defaults <=? alpha_at white_pixel ab)
           (cells white_pixel defaults) in
       pos cloud
       = flat_map (fun ab => position white_pixel defaults (as_numbers ab)) kept
       /\ col cloud
          = flat_map
              (fun ab => colour white_tint white_pixel defaults (as_numbers ab))
              kept
       /\ (forall ab,
             List.length (position white_pixel defaults (as_numbers ab)) = 3%nat)
       /\ (forall ab,
             List.length (colour white_tint white_pixel defaults (as_numbers ab))
             = 3%nat).
Proof.
  apply (C4_alpha_filter white_tint white_pixel defaults).
  - unfold image_ok; simpl; lia.
  - reflexivity.
Defined.

Lemma visited_multiples img st n : JS.to_index (step st) = Some n ->
  visited img st
  = flat_map (fun b => map (fun a => (JS.of_int a, JS.of_int b))
                          (multiples n (width img)))
      (multiples n (height img)).
Proof.
  intros H. unfold visited, axis, axisZ. rewrite H.
  induction (multiples n (height img)) as [|b l IH]; [reflexivity|].
  cbn [map flat_map]. rewrite IH, map_map. reflexivity.
Qed.

(** ** The stride *)

Local Open Scope Z_scope.

Lemma Math_max_1_low v : is_nan v = false -> (1 <? v)%float = false ->
  JS.Math_max 1%float v = 1%float.
Proof.
  intros N L. destruct (Math_max_1_cases v) as [[N' _]|[[L' _]|E]];
    [congruence|congruence|assumption].
Qed.

Lemma Math_max_1_high v : (1 <? v)%float = true ->
  JS.Math_max 1%float v = v.
Proof.
  intros L. unfold JS.Math_max. change (is_nan 1%float) with false.
  destruct (is_nan v) eqn:N.
  - rewrite is_nan_spec in N. rewrite FloatAxioms.ltb_spec in L.
    destruct (Prim2SF v); discriminate.
  - rewrite L. reflexivity.
Qed.

Lemma to_index_one : JS.to_index 1%float = Some 1.
Proof. reflexivity. Qed.

Lemma ltb_one_negative m e x : Prim2SF x = S754_finite true m e ->
  is_nan x = false /\ (1 <? x)%float = false.
Proof.
  intros E. rewrite is_nan_spec, FloatAxioms.ltb_spec, E, Prim2SF_one. split; reflexivity.
Qed.

Lemma ltb_one_zero s x : Prim2SF x = S754_zero s ->
  is_nan x = false /\ (1 <? x)%float = false.
Proof.
  intros E. rewrite is_nan_spec, FloatAxioms.ltb_spec, E, Prim2SF_one. split; reflexivity.
Qed.

Lemma Math_max_1_opp k : 0 <= k < 2 ^ 53 ->
  JS.Math_max 1%float (- JS.of_int k)%float = 1%float.
Proof.
  intros Hk.
  destruct (Z.eq_dec k 0) as [->|K0].
  - reflexivity.
  - destruct (Prim2SF_of_int k) as (m & E & _); [lia|].
    assert (E' : Prim2SF (- JS.of_int k)%float = S754_finite true m (dig k - 53)).
    { rewrite FloatAxioms.opp_spec, E. reflexivity. }
    destruct (ltb_one_negative _ _ _ E') as [N L].
    apply Math_max_1_low; assumption.
Qed.

Lemma Math_max_1_of_int k : 0 <= k < 2 ^ 53 ->
  JS.Math_max 1%float (JS.of_int k) = JS.of_int (Z.max 1 k).
Proof.
  intros Hk.
  assert (L : (1 <? JS.of_int k)%float = (1 <? k)).
  { change 1%float with (JS.of_int 1). apply of_int_ltb; lia. }
  destruct (Z.ltb_spec 1 k) as [H|H].
  - destruct (Math_max_1_cases (JS.of_int k)) as [[N _]|[[_ ->]|E]].
    + rewrite is_nan_of_int in N by lia. discriminate.
    + rewrite Z.max_r by lia. reflexivity.
    + exfalso. unfold JS.Math_max in E.
      change (is_nan 1%float) with false in E.
      rewrite is_nan_of_int, L in E by lia. cbn [orb] in E.
      apply (f_equal JS.to_index) in E.
      rewrite to_index_of_int, to_index_one in E by lia. injection E as E. lia.
  - rewrite Z.max_l by lia. apply Math_max_1_low; [apply is_nan_of_int; lia|assumption].
Qed.

(** The step the pass computes is the stride of the words, for every
    finite [samplingStep]. *)
Lemma step_effective_stride st n :
  effective_stride (samplingStep st) = Some n ->
  JS.to_index (step st) = Some n.
Proof.
  unfold effective_stride, floorZ, step, JS.Math_floor.
  destruct (Prim2SF (samplingStep st)) as [sg|sg| |sg m e] eqn:E;
    try discriminate; cbn [option_map]; intros H; injection H as <-.
  - destruct (ltb_one_zero _ _ E) as [N L].
    rewrite Math_max_1_low by assumption. reflexivity.
  - destruct (Z.leb_spec 0 e) as [He|He].
    + assert (P : 0 < 2 ^ e) by (apply Z.pow_pos_nonneg; lia).
      destruct sg.
      * destruct (ltb_one_negative _ _ _ E) as [N L].
        rewrite Math_max_1_low by assumption.
        rewrite Z.max_l by nia. reflexivity.
      * assert (S : stopper (samplingStep st)).
        { unfold stopper. rewrite E. assumption. }
        pose proof (to_index_stopper _ S) as B.
        assert (T : JS.to_index (samplingStep st) = Some (Zpos m * 2 ^ e)).
        { unfold JS.to_index. rewrite E, (proj2 (Z.leb_le 0 e) He).
          rewrite Z.shiftl_mul_pow2 by assumption. reflexivity. }
        rewrite T in B.
        rewrite Math_max_1_high.
        -- rewrite T, Z.max_r by lia. reflexivity.
        -- rewrite FloatAxioms.ltb_spec, E, Prim2SF_one. unfold SFltb, SFcompare.
           destruct (valid_finite _ _ _ _ E) as (_ & [->|Hd] & _); [lia|].
           rewrite (proj2 (Z.compare_lt_iff (-52) e)) by lia. reflexivity.
    + destruct (floor_quotient _ _ _ _ E He) as [Q0 Q1].
      assert (P : 0 < 2 ^ (- e)) by (apply Z.pow_pos_nonneg; lia).
      destruct sg.
      * assert (M : JS.Math_max 1%float
                      (if Z.shiftl (Z.shiftr (Zpos m) (- e)) (- e) =? Zpos m
                       then (- JS.of_int (Z.shiftr (Zpos m) (- e)))%float
                       else (- JS.of_int (Z.shiftr (Zpos m) (- e) + 1))%float)
                    = 1%float).
        { destruct (_ =? _); apply Math_max_1_opp; lia. }
        rewrite M, Z.max_l; [reflexivity|].
        assert (Zneg m / 2 ^ (- e) < 0)
          by (apply Z.div_lt_upper_bound; lia).
        lia.
      * rewrite Math_max_1_of_int, to_index_of_int by lia.
        rewrite Z.shiftr_div_pow2 by lia. reflexivity.
Qed.

Local Open Scope float_scope.

(** C5: for a finite [samplingStep] let [n] be the stride
    [max(1, floor(samplingStep))].  The pass visits the pairs [(a, b)]
    of multiples of [n] below the width and the height, rows in
    increasing [b] and within a row in increasing [a], and the points of
    the cloud are those of the retained pairs, appended in that
    order. *)
Theorem C5_stride (THREE_Color : string -> rgb)
    (img : ImageData) (st : AppState) (n : Z) :
  image_ok img ->
  effective_stride (samplingStep st) = Some n ->
  (1 <= n)%Z
  /\ (forall a, In a (multiples n (width img)) ->
        (0 <= a < width img)%Z /\ (a mod n = 0)%Z)
  /\ (forall b, In b (multiples n (height img)) ->
        (0 <= b < height img)%Z /\ (b mod n = 0)%Z)
  /\ StronglySorted Z.lt (multiples n (width img))
  /\ StronglySorted Z.lt (multiples n (height img))
  /\ exists cloud,
       sample THREE_Color img st = Some cloud
       /\ let scan_order :=
            flat_map (fun b => map (fun a => (JS.of_int a, JS.of_int b))
                                    (multiples n (width img)))
              (multiples n (height img)) in
          pos cloud
          = flat_map (position img st) (filter (retained img st) scan_order)
          /\ col cloud
             = flat_map (colour THREE_Color img st)
                 (filter (retained img st) scan_order).
Proof.
  intros Hok Hs. pose proof (step_effective_stride st n Hs) as Hn.
  pose proof (step_index _ _ Hn) as H1.
  destruct Hok as [Hw Hh].
  split; [assumption|].
  split; [intros a Ha; apply multiples_In in Ha; [assumption|lia|lia]|].
  split; [intros b Hb; apply multiples_In in Hb; [assumption|lia|lia]|].
  split; [apply multiples_sorted; assumption|].
  split; [apply multiples_sorted; assumption|].
  eexists. split; [apply sample_visited; split; assumption|].
  cbv zeta. rewrite scan_emit, <- (visited_multiples img st n Hn).
  split; reflexivity.
Qed.

Lemma C5_stride_witness :
  (1 <= 2)%Z
  /\ (forall a, In a (multiples 2 (width strip)) ->
        (0 <= a < width strip)%Z /\ (a mod 2 = 0)%Z)
  /\ (forall b, In b (multiples 2 (height strip)) ->
        (0 <= b < height strip)%Z /\ (b mod 2 = 0)%Z)
  /\ StronglySorted Z.lt (multiples 2 (width strip))
  /\ StronglySorted Z.lt (multiples 2 (height strip))
  /\ exists cloud,
       sample white_tint strip coarse_step = Some cloud
       /\ let scan_order :=
            flat_map (fun b => map (fun a => (JS.of_int a, JS.of_int b))
                                    (multiples 2 (width strip)))
              (multiples 2 (height strip)) in
          pos cloud
          = flat_map (position strip coarse_step)
              (filter (retained strip coarse_step) scan_order)
          /\ col cloud
             = flat_map (colour white_tint strip coarse_step)
                 (filter (retained strip coarse_step) scan_order).
Proof.
  apply (C5_stride white_tint strip coarse_step 2).
  - unfold image_ok; simpl; lia.
  - vm_compute. reflexivity.
Defined.

(** C7: under MATRIX the transform yields red 0, green
    [gray * 1.5] and blue 0, with
    [gray = R*0.299 + G*0.587 + B*0.114] of the channels divided by
    255; the tint (unless it is ["#ffffff"]) and then the brightness
    multiply these three values.  With white tint and brightness 1 red
    and blue are exactly 0. *)
Theorem C7_matrix (THREE_Color : string -> rgb)
    (r g b brightness : JS.number) (tintHex : string) :
  let gray := r / 255 * 0.299 + g / 255 * 0.587 + b / 255 * 0.114 in
  applyColorMode THREE_Color r g b MATRIX brightness tintHex
  = (let '(tr, tg, tb) := THREE_Color tintHex in
     if String.eqb tintHex "#ffffff"
     then (0 * brightness, gray * 1.5 * brightness, 0 * brightness)
     else (0 * tr * brightness, gray * 1.5 * tg * brightness,
           0 * tb * brightness))
  /\ applyColorMode THREE_Color r g b MATRIX 1 "#ffffff"
     = (0, gray * 1.5 * 1, 0).
Proof.
  cbv zeta. split.
  - unfold applyColorMode.
    destruct (THREE_Color tintHex) as [[tr tg] tb].
    destruct (String.eqb tintHex "#ffffff"); reflexivity.
  - reflexivity.
Qed.

(** C8, as stated, fails: a NaN [particleSize] is not rejected; the
    pass returns a cloud whose first coordinate is NaN. *)
Lemma C8_nan_geometry_not_rejected :
  exists cloud,
    sample white_tint white_pixel (scenario nan 400) = Some cloud
    /\ is_nan (nth 0 (pos cloud) 0) = true.
Proof. eexists. split; vm_compute; reflexivity. Qed.

(** C8, amended: the effective step is at least 1 exactly when the
    configured step is not NaN, and the pass validates no field: for
    every configuration, non-finite values included, it returns a
    cloud. *)
Theorem C8_step_clamp_no_validation (THREE_Color : string -> rgb)
    (img : ImageData) (st : AppState) :
  image_ok img ->
  (1 <=? step st) = negb (is_nan (samplingStep st))
  /\ exists cloud, sample THREE_Color img st = Some cloud.
Proof.
  intros Hok. split; [apply step_clamped|].
  eexists. apply sample_visited. assumption.
Qed.

Lemma C8_step_clamp_no_validation_witness :
  (1 <=? step (scenario nan infinity)) = negb (is_nan (samplingStep (scenario nan infinity)))
  /\ exists cloud, sample white_tint white_pixel (scenario nan infinity) = Some cloud.
Proof.
  apply (C8_step_clamp_no_validation white_tint white_pixel (scenario nan infinity)).
  unfold image_ok; simpl; lia.
Defined.

(** ** Two runs of the pass *)

Lemma array_push_length s : forall r vs,
  List.length (array_push s r vs) = List.length s.
Proof.
  induction s as [|a s IH]; intros [|r] vs; cbn [array_push List.length];
    try reflexivity.
  rewrite IH. reflexivity.
Qed.

Lemma array_at_push_same s : forall r vs, (r < List.length s)%nat ->
  array_at (array_push s r vs) r = (array_at s r ++ vs)%list.
Proof.
  unfold array_at.
  induction s as [|a s IH]; intros [|r] vs H; cbn [List.length] in H;
    try lia; cbn [array_push nth].
  - reflexivity.
  - apply IH. lia.
Qed.

Lemma array_at_push_other s : forall r r' vs, r <> r' ->
  array_at (array_push s r vs) r' = array_at s r'.
Proof.
  unfold array_at.
  induction s as [|a s IH]; intros [|r] [|r'] vs H; cbn [array_push nth];
    try reflexivity; try congruence.
  apply IH. congruence.
Qed.

Lemma holds_push s0 s acc ps cs : holds s0 s acc ->
  holds s0
    (array_push (array_push s (List.length s0) ps) (S (List.length s0)) cs)
    {| pos := (pos acc ++ ps)%list; col := (col acc ++ cs)%list |}.
Proof.
  intros (L & F & P & C). unfold holds. cbn [pos col].
  rewrite !array_push_length. split; [assumption|]. split; [|split].
  - intros r Hr. rewrite !array_at_push_other by lia. apply F. assumption.
  - rewrite array_at_push_other by lia.
    rewrite array_at_push_same by lia. rewrite P. reflexivity.
  - rewrite array_at_push_same by (rewrite array_push_length; lia).
    rewrite array_at_push_other by lia. rewrite C. reflexivity.
Qed.

Lemma visit_in_holds THREE_Color img st s0 s acc y x : holds s0 s acc ->
  holds s0 (visit_in THREE_Color img st (List.length s0) (S (List.length s0)) y x s)
    (visit THREE_Color img st y x acc).
Proof.
  intros H. unfold visit_in, visit. cbv zeta.
  destruct (transparencyThreshold st <=? _)%float; [|assumption].
  destruct (applyColorMode _ _ _ _ _ _ _) as [[cr cg] cb].
  unfold push3. apply holds_push. assumption.
Qed.

Lemma for_loop_sim {A B : Type} (R : A -> B -> Prop) bound stp
    (f : JS.number -> A -> option A) (g : JS.number -> B -> option B) :
  (forall i a b a', R a b -> f i a = Some a' ->
     exists b', g i b = Some b' /\ R a' b') ->
  forall fuel i a b a', R a b ->
    for_loop fuel bound stp f i a = Some a' ->
    exists b', for_loop fuel bound stp g i b = Some b' /\ R a' b'.
Proof.
  intros Step fuel. induction fuel as [|fuel IH]; intros i a b a' H E;
    cbn [for_loop] in *; destruct (i <? bound)%float.
  - discriminate.
  - injection E as <-. exists b. split; [reflexivity|assumption].
  - destruct (f i a) as [a1|] eqn:F; [|discriminate].
    destruct (Step i a b a1 H F) as (b1 & G & H1). rewrite G.
    apply (IH _ _ _ _ H1 E).
  - injection E as <-. exists b. split; [reflexivity|assumption].
Qed.

Lemma holds_fresh s0 : holds s0 ((s0 ++ [[]]) ++ [[]])%list {| pos := []; col := [] |}.
Proof.
  unfold holds, array_at. cbn [pos col]. rewrite !length_app. cbn [List.length].
  split; [lia|]. split; [|split].
  - intros r Hr. rewrite !app_nth1 by (rewrite ?length_app; cbn [List.length]; lia).
    reflexivity.
  - rewrite app_nth1 by (rewrite length_app; cbn [List.length]; lia).
    rewrite app_nth2, Nat.sub_diag by lia. reflexivity.
  - rewrite app_nth2 by (rewrite length_app; cbn [List.length]; lia).
    rewrite length_app. cbn [List.length].
    replace (S (List.length s0) - (List.length s0 + 1))%nat with 0%nat by lia.
    reflexivity.
Qed.

(** Run on any component, the pass leaves in two new arrays what
    [sample_fuel] returns, and no array that was there is changed. *)
Lemma onload_fuel_sample THREE_Color img st fuel cloud (c : component) :
  sample_fuel THREE_Color img st fuel = Some cloud ->
  exists s3,
    onload_fuel THREE_Color img st fuel c
    = Some {| arrays := s3;
              particlesData :=
                Some (List.length (arrays c), S (List.length (arrays c))) |}
    /\ holds (arrays c) s3 cloud.
Proof.
  intros E. unfold onload_fuel, new_array. cbv zeta.
  rewrite length_app. cbn [List.length].
  replace (List.length (arrays c) + 1)%nat with (S (List.length (arrays c))) by lia.
  unfold sample_fuel in E.
  destruct (for_loop_sim (fun acc s => holds (arrays c) s acc)
              (JS.of_int (height img)) (step st)
              (scan_row THREE_Color img st fuel)
              (fun y s =>
                 for_loop fuel (JS.of_int (width img)) (step st)
                   (fun x s => Some (visit_in THREE_Color img st
                                       (List.length (arrays c))
                                       (S (List.length (arrays c))) y x s))
                   0%float s))
    with (fuel := fuel) (i := 0%float) (a := {| pos := []; col := [] |})
         (b := ((arrays c ++ [[]]) ++ [[]])%list) (a' := cloud)
    as (s3 & G & H).
  - intros y a b a' H F. unfold scan_row in F.
    apply (for_loop_sim (fun acc s => holds (arrays c) s acc)
             (JS.of_int (width img)) (step st)
             (fun x acc => Some (visit THREE_Color img st y x acc))
             (fun x s => Some (visit_in THREE_Color img st
                                 (List.length (arrays c))
                                 (S (List.length (arrays c))) y x s))
             ) with (a := a); [|assumption|assumption].
    intros x a1 b1 a2 H1 F1. injection F1 as <-.
    eexists. split; [reflexivity|]. apply visit_in_holds. assumption.
  - apply holds_fresh.
  - exact E.
  - rewrite G. exists s3. split; [reflexivity|assumption].
Qed.

(** C9: the pass reads the image and the configuration and nothing
    else, no clock and no random number; what two calls can differ in
    is the state they start from, where the arrays of earlier passes
    live.  From every such state the pass ends and shows the same cloud,
    the one [sample] returns; and of two calls in a row the second
    shows what the first showed and leaves the arrays of the first as
    they were. *)
Theorem C9_deterministic (THREE_Color : string -> rgb)
    (img : ImageData) (st : AppState) :
  image_ok img ->
  exists cloud,
    sample THREE_Color img st = Some cloud
    /\ (forall c, exists c',
          onload THREE_Color img st c = Some c'
          /\ cloud_of c' = Some cloud)
    /\ (forall c c' c'',
          onload THREE_Color img st c = Some c' ->
          onload THREE_Color img st c' = Some c'' ->
          cloud_of c'' = cloud_of c'
          /\ cloud_of {| arrays := arrays c'';
                         particlesData := particlesData c' |}
             = cloud_of c').
Proof.
  intros Hok. pose proof (sample_visited THREE_Color img st Hok) as Sm.
  set (cloud := scan THREE_Color img st (visited img st) empty_particles) in *.
  assert (Run : forall c, exists s3,
             onload THREE_Color img st c
             = Some {| arrays := s3;
                       particlesData :=
                         Some (List.length (arrays c), S (List.length (arrays c))) |}
             /\ holds (arrays c) s3 cloud).
  { intros c. apply onload_fuel_sample. exact Sm. }
  assert (Cloud : forall s0 s3, holds s0 s3 cloud ->
             cloud_of {| arrays := s3;
                         particlesData := Some (List.length s0, S (List.length s0)) |}
             = Some cloud).
  { intros s0 s3 (_ & _ & P & C). unfold cloud_of. cbn [particlesData arrays].
    rewrite P, C. destruct cloud; reflexivity. }
  exists cloud. split; [exact Sm|]. split.
  - intros c. destruct (Run c) as (s3 & E & H).
    eexists. split; [exact E|]. apply (Cloud _ _ H).
  - intros c c' c'' E1 E2.
    destruct (Run c) as (s3 & E1' & H1). rewrite E1' in E1. injection E1 as <-.
    destruct (Run {| arrays := s3;
                     particlesData :=
                       Some (List.length (arrays c), S (List.length (arrays c))) |})
      as (s4 & E2' & H2).
    rewrite E2' in E2. injection E2 as <-. cbn [arrays particlesData] in *.
    rewrite (Cloud _ _ H2), (Cloud _ _ H1). split; [reflexivity|].
    destruct H1 as (L1 & _ & P1 & C1). destruct H2 as (_ & F2 & _ & _).
    unfold cloud_of. cbn [particlesData arrays].
    rewrite !F2 by lia. rewrite P1, C1. destruct cloud; reflexivity.
Qed.

Lemma C9_deterministic_witness :
  exists cloud,
    sample white_tint strip coarse_step = Some cloud
    /\ (forall c, exists c',
          onload white_tint strip coarse_step c = Some c'
          /\ cloud_of c' = Some cloud)
    /\ (forall c c' c'',
          onload white_tint strip coarse_step c = Some c' ->
          onload white_tint strip coarse_step c' = Some c'' ->
          cloud_of c'' = cloud_of c'
          /\ cloud_of {| arrays := arrays c'';
                         particlesData := particlesData c' |}
             = cloud_of c').
Proof.
  apply (C9_deterministic white_tint strip coarse_step).
  unfold image_ok; simpl; lia.
Defined.

(** C10: the position array and the colour array of the cloud have the
    same length, three numbers for each of the [N] retained pixels. *)
Theorem C10_equal_lengths (THREE_Color : string -> rgb)
    (img : ImageData) (st : AppState) :
  image_ok img ->
  exists cloud,
    sample THREE_Color img st = Some cloud
    /\ let N := List.length (filter (retained img st) (visited img st)) in
       List.length (pos cloud) = (3 * N)%nat
       /\ List.length (col cloud) = (3 * N)%nat.
Proof.
  intros Hok. eexists. split; [apply sample_visited; assumption|].
  cbv zeta. rewrite scan_emit. cbn [pos col empty_particles app].
  induction (filter (retained img st) (visited img st)) as [|[x y] l [IH1 IH2]].
  - split; reflexivity.
  - cbn [flat_map]. rewrite !length_app, IH1, IH2.
    unfold position, colour. destruct (pixel img x y) as [[[r g] b] a].
    destruct (applyColorMode _ _ _ _ _ _ _) as [[cr cg] cb].
    cbn [List.length]. split; lia.
Qed.

Lemma C10_equal_lengths_witness :
  exists cloud,
    sample white_tint white_pixel defaults = Some cloud
    /\ let N := List.length (filter (retained white_pixel defaults)
                               (visited white_pixel defaults)) in
       List.length (pos cloud) = (3 * N)%nat
       /\ List.length (col cloud) = (3 * N)%nat.
Proof.
  apply (C10_equal_lengths white_tint white_pixel defaults).
  unfold image_ok; simpl; lia.
Defined.
Local Open Scope Z_scope.

Lemma dig_mono a b : 0 < a <= b -> dig a <= dig b.
Proof. intros H. unfold dig. pose proof (Z.log2_le_mono a b). lia. Qed.

Lemma dig_times_3 N : 0 < N -> dig N + 1 <= dig (3 * N) <= dig N + 2.
Proof.
  intros HN. split.
  - replace (dig N + 1) with (dig (N * 2 ^ 1)) by (rewrite dig_mul_pow2; lia).
    apply dig_mono. lia.
  - replace (dig N + 2) with (dig (N * 2 ^ 2)) by (rewrite dig_mul_pow2; lia).
    apply dig_mono. lia.
Qed.

(** Dividing a multiple of three by three is exact. *)
Lemma of_int_div_3 N : 0 <= N -> 3 * N < 2 ^ 53 ->
  (JS.of_int (3 * N) / 3)%float = JS.of_int N.
Proof.
  intros H0 H1. destruct (Z.eq_dec N 0) as [->|HN]; [reflexivity|].
  apply Prim2SF_inj. rewrite FloatAxioms.div_spec.
  change (Prim2SF 3%float) with (S754_finite false 6755399441055744 (-51)).
  destruct (Prim2SF_of_int (3 * N)) as (mx & -> & Hmx); [lia|].
  destruct (Prim2SF_of_int N) as (mn & -> & Hmn); [lia|].
  pose proof (dig_times_3 N ltac:(lia)) as D3.
  pose proof (dig_le_53 (3 * N) ltac:(lia)) as D4.
  pose proof (dig_pos N ltac:(lia)) as D5.
  set (d := dig (3 * N)) in *.
  assert (Hdx : Zpos (digits2_pos mx) = 53).
  { rewrite Zdigits_log2, Hmx, dig_mul_pow2 by lia. fold d. lia. }
  unfold SF64div, SFdiv, SFdiv_core_binary, Zdigits2.
  rewrite Hdx. change (Zpos (digits2_pos 6755399441055744)) with 53.
  rewrite fexp_normal by lia.
  replace (Z.min (53 + (d - 53) - (53 + -51) - 53) (d - 53 - -51)) with (d - 55) by lia.
  replace (d - 53 - -51 - (d - 55)) with 53 by lia.
  assert (Hdiv : Z.div_eucl (Z.shiftl (Zpos mx) 53) 6755399441055744
                 = (N * 2 ^ (55 - d), 0)).
  { rewrite Z.shiftl_mul_pow2, Hmx by lia.
    assert (E : 3 * N * 2 ^ (53 - d) * 2 ^ 53
                = 6755399441055744 * (N * 2 ^ (55 - d)) + 0).
    { replace (55 - d) with ((53 - d) + 2) by lia.
      rewrite Z.pow_add_r by lia.
      change 6755399441055744 with (3 * 2 ^ 51).
      change (2 ^ 53) with (2 ^ 51 * 2 ^ 2). ring. }
    pose proof (Z.div_eucl_eq (3 * N * 2 ^ (53 - d) * 2 ^ 53) 6755399441055744
                  ltac:(lia)) as DE.
    destruct (Z.div_eucl _ _) as [q r] eqn:Q.
    pose proof (Z.mod_pos_bound (3 * N * 2 ^ (53 - d) * 2 ^ 53) 6755399441055744
                  ltac:(lia)) as MB.
    unfold Z.modulo in MB. rewrite Q in MB.
    assert (q = N * 2 ^ (55 - d) /\ r = 0) as [-> ->]; [|reflexivity].
    apply Z.div_mod_unique with (b := 6755399441055744); try lia. }
  cbv zeta. rewrite Hdiv.
  change (new_location 6755399441055744 0) with loc_Exact.
  destruct (binary_round_aux_int N (55 - d) (d - 55)) as (m & Hm & Hz); try lia.
  cbn [xorb]. rewrite Hm. f_equal; [|lia]. apply Pos2Z.inj. congruence.
Qed.

(** ** Printing numbers *)

Lemma integral_of_int k m e : 0 <= k < 2 ^ 53 ->
  Prim2SF (JS.of_int k) = S754_finite false m e -> integral m e = Some k.
Proof.
  intros Hk E. pose proof (to_index_of_int k Hk) as T.
  unfold JS.to_index in T. rewrite E in T. exact T.
Qed.

Section PrintFacts.
Variable shortest_digits : JS.number -> string.

Lemma Number_toString_of_int k : 0 <= k < 2 ^ 53 ->
  Number_toString shortest_digits (JS.of_int k) = decimal (Z.to_N k).
Proof.
  intros Hk. unfold Number_toString.
  destruct (Z.eq_dec k 0) as [->|Hk0]; [reflexivity|].
  destruct (Prim2SF_of_int k) as (m & E & _); [lia|].
  rewrite E, (integral_of_int k m _ Hk E).
  rewrite (proj2 (Z.ltb_lt k (2 ^ 53))) by lia. reflexivity.
Qed.

Lemma Number_toString_nan x : is_nan x = true ->
  Number_toString shortest_digits x = "NaN"%string.
Proof.
  rewrite is_nan_spec. unfold Number_toString.
  destruct (Prim2SF x); congruence.
Qed.

End PrintFacts.

(** ** The colour byte *)

Lemma ltb_not_nan_l x y : (x <? y)%float = true -> is_nan x = false.
Proof.
  rewrite FloatAxioms.ltb_spec, is_nan_spec. unfold SFltb.
  destruct (Prim2SF x); try reflexivity. discriminate.
Qed.

Lemma ltb_not_nan_r x y : (x <? y)%float = true -> is_nan y = false.
Proof.
  rewrite FloatAxioms.ltb_spec, is_nan_spec. unfold SFltb.
  destruct (Prim2SF y); try reflexivity.
  destruct (Prim2SF x); discriminate.
Qed.

(** [Math.floor] of a number above zero is an integer below [2^53] or a
    number from [2^52] on. *)
Lemma floor_positive x : (0 <? JS.Math_floor x)%float = true ->
  (exists q, 0 < q < 2 ^ 53 /\ JS.Math_floor x = JS.of_int q)
  \/ stopper (JS.Math_floor x).
Proof.
  intros L. rewrite FloatAxioms.ltb_spec in L. unfold SFltb in L.
  change (Prim2SF 0%float) with (S754_zero false) in L.
  unfold JS.Math_floor in *.
  destruct (Prim2SF x) as [sg|sg| |sg m e] eqn:E.
  - rewrite E in L. discriminate.
  - right. unfold stopper. rewrite E in *. destruct sg; [discriminate|exact I].
  - rewrite E in L. discriminate.
  - destruct (Z.leb_spec 0 e) as [He|He].
    + right. unfold stopper. rewrite E in *. destruct sg; [discriminate|assumption].
    + destruct (floor_quotient _ _ _ _ E He) as [Q0 Q1].
      set (q := Z.shiftr (Zpos m) (- e)) in *.
      destruct sg.
      * exfalso.
        assert (F : forall z, 0 <= z < 2 ^ 53 ->
                    SFcompare (S754_zero false) (Prim2SF (- JS.of_int z)) <> Some Lt).
        { intros z Hz. rewrite FloatAxioms.opp_spec.
          destruct (Z.eq_dec z 0) as [->|Hz0]; [discriminate|].
          destruct (Prim2SF_of_int z) as (mz & -> & _); [lia|discriminate]. }
        destruct (Z.shiftl q (- e) =? Zpos m);
          [apply (F q); [lia|] | apply (F (q + 1)); [lia|]];
          destruct (SFcompare _ _) as [[]|]; congruence.
      * left. exists q. split; [|reflexivity].
        assert (L' : (JS.of_int 0 <? JS.of_int q)%float = true).
        { rewrite FloatAxioms.ltb_spec. unfold SFltb. exact L. }
        rewrite of_int_ltb in L' by lia. apply Z.ltb_lt in L'. lia.
Qed.

Lemma Math_max_0_cases v :
  (is_nan v = true /\ JS.Math_max 0%float v = nan)
  \/ ((0 <? v)%float = true /\ JS.Math_max 0%float v = v)
  \/ (is_nan v = false /\ JS.Math_max 0%float v = 0%float).
Proof.
  unfold JS.Math_max. change (is_nan 0%float) with false. cbn [orb].
  destruct (is_nan v); [left; auto|].
  destruct (0 <? v)%float; [right; left; auto|].
  right; right. split; [reflexivity|].
  destruct (v <? 0)%float; reflexivity.
Qed.

Lemma Math_min_255_of_int q : 0 <= q < 2 ^ 53 ->
  JS.Math_min 255%float (JS.of_int q) = JS.of_int (Z.min 255 q).
Proof.
  intros Hq. unfold JS.Math_min.
  change (is_nan 255%float) with false. rewrite is_nan_of_int by assumption.
  cbn [orb]. change 255%float with (JS.of_int 255).
  rewrite !of_int_ltb by lia.
  destruct (Z.ltb_spec 255 q) as [A|A].
  - rewrite Z.min_l by lia. reflexivity.
  - destruct (Z.ltb_spec q 255) as [B|B].
    + rewrite Z.min_r by lia. reflexivity.
    + assert (q = 255) by lia. subst q. reflexivity.
Qed.

Lemma Math_min_255_stopper s : stopper s -> is_nan s = false ->
  JS.Math_min 255%float s = 255%float.
Proof.
  intros Hs Hn. unfold JS.Math_min.
  change (is_nan 255%float) with false. rewrite Hn. cbn [orb].
  assert (L : (255 <? s)%float = true); [|rewrite L; reflexivity].
  rewrite FloatAxioms.ltb_spec. rewrite is_nan_spec in Hn. unfold stopper in Hs.
  set (p := Prim2SF 255%float). vm_compute in p. subst p.
  unfold SFltb.
  destruct (Prim2SF s) as [sg|[]| |[] m e]; try contradiction; try discriminate;
    try reflexivity.
  cbn [SFcompare]. destruct (Z.compare_spec (-45) e); try reflexivity; lia.
Qed.

(** The byte of a channel: NaN when the scaled channel is NaN, and an
    integer from 0 to 255 otherwise. *)
Lemma uchar_cases c :
  (is_nan (c * 255)%float = true /\ uchar c = nan)
  \/ (is_nan (c * 255)%float = false
      /\ exists k, 0 <= k <= 255 /\ uchar c = JS.of_int k).
Proof.
  unfold uchar. set (v := (c * 255)%float).
  destruct (Math_max_0_cases (JS.Math_floor v)) as [[N ->]|[[L ->]|[N ->]]].
  - left. rewrite is_nan_floor in N. split; [assumption|reflexivity].
  - right. pose proof (ltb_not_nan_r _ _ L) as N. split.
    + rewrite <- is_nan_floor. assumption.
    + destruct (floor_positive v L) as [(q & Hq & ->)|Hs].
      * rewrite Math_min_255_of_int by lia.
        exists (Z.min 255 q). split; [lia|reflexivity].
      * rewrite Math_min_255_stopper by assumption.
        exists 255. split; [lia|reflexivity].
  - right. split; [rewrite <- is_nan_floor; assumption|].
    exists 0. split; [lia|reflexivity].
Qed.

(** ** Strings of digits *)

Local Open Scope Z_scope.

Lemma string_forall_app p s t :
  string_forall p (s ++ t) = string_forall p s && string_forall p t.
Proof.
  induction s as [|a s IH]; simpl; [reflexivity|].
  rewrite IH, andb_assoc. reflexivity.
Qed.

Lemma string_forall_impl (p q : ascii -> bool) s :
  (forall a, p a = true -> q a = true) ->
  string_forall p s = true -> string_forall q s = true.
Proof.
  intros H. induction s as [|a s IH]; simpl; [reflexivity|].
  intros E. apply andb_true_iff in E. destruct E as [E1 E2].
  rewrite (H _ E1), (IH E2). reflexivity.
Qed.

(** Splitting at a character that the first piece does not contain. *)
Lemma split_on_app c s t :
  string_forall (fun a => negb (Ascii.eqb a c)) s = true ->
  split_on c (s ++ String c t) = s :: split_on c t.
Proof.
  induction s as [|a s IH]; simpl; intros H.
  - rewrite Ascii.eqb_refl. reflexivity.
  - apply andb_true_iff in H. destruct H as [H1 H2].
    apply negb_true_iff in H1. rewrite H1, (IH H2). reflexivity.
Qed.

Lemma split_on_none c s :
  string_forall (fun a => negb (Ascii.eqb a c)) s = true ->
  split_on c s = [s].
Proof.
  induction s as [|a s IH]; simpl; intros H; [reflexivity|].
  apply andb_true_iff in H. destruct H as [H1 H2].
  apply negb_true_iff in H1. rewrite H1, (IH H2). reflexivity.
Qed.

Lemma num_char_not_space a : is_num_char a = true -> negb (Ascii.eqb a " ") = true.
Proof.
  destruct a as [[] [] [] [] [] [] [] []]; vm_compute; congruence.
Qed.

Lemma num_char_not_nl a : is_num_char a = true -> negb (Ascii.eqb a "010") = true.
Proof.
  destruct a as [[] [] [] [] [] [] [] []]; vm_compute; congruence.
Qed.

Lemma digit_not_point a : is_digit a = true -> negb (Ascii.eqb a ".") = true.
Proof.
  destruct a as [[] [] [] [] [] [] [] []]; vm_compute; congruence.
Qed.

Lemma digit_not_minus a : is_digit a = true -> Ascii.eqb a "-" = false.
Proof.
  destruct a as [[] [] [] [] [] [] [] []]; vm_compute; congruence.
Qed.

Lemma digit_num_char a : is_digit a = true -> is_num_char a = true.
Proof. unfold is_num_char. intros ->. reflexivity. Qed.

Lemma string_of_uint_digits d :
  string_forall is_digit (NilEmpty.string_of_uint d) = true.
Proof. induction d; simpl; auto. Qed.

Lemma decimal_digits n : string_forall is_digit (decimal n) = true.
Proof.
  unfold decimal, NilZero.string_of_uint.
  destruct (N.to_uint n); try reflexivity; apply string_of_uint_digits.
Qed.

Lemma N_to_uint_nonnil n : N.to_uint n <> Decimal.Nil.
Proof.
  destruct n as [|p]; [discriminate|]. apply Unsigned.to_uint_nonnil.
Qed.

Lemma parse_nat_decimal n : parse_nat (decimal n) = Some n.
Proof.
  unfold parse_nat, decimal.
  rewrite NilZero.usu by apply N_to_uint_nonnil.
  simpl. rewrite DecimalN.Unsigned.of_to. reflexivity.
Qed.

(** The first character of a printed natural number is a digit. *)
Lemma decimal_head n : exists a t, decimal n = String a t /\ is_digit a = true.
Proof.
  pose proof (decimal_digits n) as D.
  assert (NE : decimal n <> EmptyString).
  { unfold decimal, NilZero.string_of_uint.
    destruct (N.to_uint n); discriminate. }
  destruct (decimal n) as [|a t]; [congruence|].
  simpl in D. apply andb_true_iff in D. exists a, t. tauto.
Qed.

Lemma frac3_all : forallb frac3_ok (map Z.of_nat (seq 0 1000)) = true.
Proof. vm_compute. reflexivity. Qed.

Lemma frac3_spec f : 0 <= f < 1000 ->
  string_forall is_digit (frac3 f) = true
  /\ String.length (frac3 f) = 3%nat
  /\ parse_nat (frac3 f) = Some (Z.to_N f).
Proof.
  intros Hf. pose proof frac3_all as A. rewrite forallb_forall in A.
  specialize (A f). unfold frac3_ok in A.
  assert (I : In f (map Z.of_nat (seq 0 1000))).
  { apply in_map_iff. exists (Z.to_nat f). split; [lia|].
    apply in_seq. lia. }
  specialize (A I). apply andb_true_iff in A. destruct A as [A A3].
  apply andb_true_iff in A. destruct A as [A1 A2].
  split; [assumption|]. split; [apply Nat.eqb_eq; assumption|].
  destruct (parse_nat (frac3 f)) as [n|]; [|discriminate].
  apply Z.eqb_eq in A3. f_equal. lia.
Qed.

Lemma fixed3_num n : 0 <= n -> string_forall is_num_char (fixed3 n) = true.
Proof.
  intros Hn. unfold fixed3.
  destruct (frac3_spec (n mod 1000)) as (F & _ & _);
    [apply Z.mod_pos_bound; lia|].
  rewrite !string_forall_app.
  rewrite (string_forall_impl _ _ _ digit_num_char (decimal_digits _)).
  rewrite (string_forall_impl _ _ _ digit_num_char F). reflexivity.
Qed.

Lemma parse_fixed3_fixed3 (s : bool) n : 0 <= n ->
  parse_fixed3 (sign_text s ++ fixed3 n)
  = Some (if s then (- (n # 1000))%Q else (n # 1000)%Q).
Proof.
  intros Hn.
  destruct (frac3_spec (n mod 1000)) as (F1 & F2 & F3);
    [apply Z.mod_pos_bound; lia|].
  assert (S : split_on "." (fixed3 n)
              = [decimal (Z.to_N (n / 1000)); frac3 (n mod 1000)]).
  { unfold fixed3. change ("." ++ frac3 (n mod 1000))%string
      with (String "." (frac3 (n mod 1000))).
    rewrite split_on_app
      by (apply (string_forall_impl _ _ _ digit_not_point), decimal_digits).
    rewrite split_on_none
      by (apply (string_forall_impl _ _ _ digit_not_point); assumption).
    reflexivity. }
  assert (V : Z.of_N (Z.to_N (n / 1000) * 1000 + Z.to_N (n mod 1000)) = n).
  { pose proof (Z.div_mod n 1000 ltac:(lia)).
    pose proof (Z.mod_pos_bound n 1000 ltac:(lia)).
    assert (0 <= n / 1000) by (apply Z.div_pos; lia). lia. }
  unfold parse_fixed3. destruct s; cbn [sign_text].
  - change ("-" ++ fixed3 n)%string with (String "-" (fixed3 n)).
    cbv beta iota. rewrite Ascii.eqb_refl. cbv beta iota.
    rewrite S, F2, Nat.eqb_refl, parse_nat_decimal, F3, V.
    reflexivity.
  - change ("" ++ fixed3 n)%string with (fixed3 n).
    destruct (decimal_head (Z.to_N (n / 1000))) as (a & t & E & D).
    assert (H : fixed3 n = String a (t ++ "." ++ frac3 (n mod 1000))).
    { unfold fixed3. rewrite E. reflexivity. }
    rewrite H at 1. cbv beta iota. rewrite (digit_not_minus a D).
    cbv beta iota.
    rewrite S, F2, Nat.eqb_refl, parse_nat_decimal, F3, V. reflexivity.
Qed.

(** ** Multiplying by 255 makes no NaN *)

Local Open Scope Z_scope.

Lemma shr_1_nonneg r : 0 <= shr_m r -> 0 <= shr_m (shr_1 r).
Proof.
  destruct r as [m rr ss]. simpl.
  destruct m as [|[p|p|]|p]; simpl; lia.
Qed.

Lemma shr_nonneg r e n : 0 <= shr_m r -> 0 <= shr_m (fst (shr r e n)).
Proof.
  intros H. unfold shr. destruct n as [|p|p]; cbn [fst]; try assumption.
  rewrite iter_pos_nat. induction (Pos.to_nat p) as [|k IH]; [assumption|].
  simpl. apply shr_1_nonneg. assumption.
Qed.

Lemma shr_fexp_nonneg m e l : 0 <= m ->
  0 <= shr_m (fst (shr_fexp prec emax m e l)).
Proof.
  intros H. unfold shr_fexp. apply shr_nonneg.
  destruct l as [|[]]; assumption.
Qed.

Lemma binary_round_aux_not_nan s m e l : 0 <= m ->
  binary_round_aux prec emax s m e l <> S754_nan.
Proof.
  intros Hm. unfold binary_round_aux.
  pose proof (shr_fexp_nonneg m e l Hm) as H1.
  destruct (shr_fexp prec emax m e l) as [r1 e1]. cbn [fst] in H1.
  set (m1 := round_nearest_even (shr_m r1) (loc_of_shr_record r1)).
  assert (H2 : 0 <= m1).
  { unfold m1, round_nearest_even.
    destruct (loc_of_shr_record r1) as [|[]]; try assumption; try lia.
    destruct (Z.even (shr_m r1)); lia. }
  pose proof (shr_fexp_nonneg m1 e1 loc_Exact H2) as H3.
  destruct (shr_fexp prec emax m1 e1 loc_Exact) as [r2 e2]. cbn [fst] in H3.
  destruct (shr_m r2) as [|p|p]; try discriminate; [|lia].
  destruct (e2 <=? emax - prec); discriminate.
Qed.

Lemma is_nan_mul_255 c : is_nan (c * 255)%float = is_nan c.
Proof.
  rewrite !is_nan_spec, FloatAxioms.mul_spec.
  set (p := Prim2SF 255%float). vm_compute in p. subst p.
  destruct (Prim2SF c) as [s|s| |s m e]; try reflexivity.
  unfold SF64mul, SFmul.
  pose proof (binary_round_aux_not_nan (xorb s false)
                (Zpos (m * 8972014882652160)) (e + -45) loc_Exact
                ltac:(lia)) as H.
  destruct (binary_round_aux _ _ _ _ _ _); try reflexivity. congruence.
Qed.

(** ** [toFixed(3)] *)

Lemma Q_tolerance n m P : 0 < P ->
  2 * P * n - 2000 * m <= P -> 2000 * m - 2 * P * n <= P ->
  (Qabs ((n # 1000) - (m # Z.to_pos P)) <= 1 # 2000)%Q.
Proof.
  intros HP H1 H2. apply Qabs_Qle_condition.
  unfold Qle, Qminus, Qplus, Qopp. cbn [Qnum Qden].
  rewrite !Pos2Z.inj_mul, !Z2Pos.id by assumption.
  split; nia.
Qed.

Lemma Qabs_opp_sub a b : (Qabs (- a - - b) == Qabs (a - b))%Q.
Proof.
  rewrite <- (Qabs_opp (a - b)). apply Qabs_wd. ring.
Qed.

Section FixedFacts.
Variable shortest_digits : JS.number -> string.

(** A number in the fixed range is written as a sign and a count of
    thousandths that is within half a thousandth of it. *)
Lemma toFixed3_fixable x : fixable x = true ->
  exists (s : bool) (n : Z),
    0 <= n
    /\ toFixed3 shortest_digits x = (sign_text s ++ fixed3 n)%string
    /\ (Qabs ((if s then - (n # 1000) else n # 1000) - F2Q x) <= 1 # 2000)%Q.
Proof.
  unfold fixable, toFixed3, F2Q.
  destruct (Prim2SF x) as [s|s| |s m e]; try discriminate.
  - intros _. exists false, 0. split; [lia|]. split; [reflexivity|].
    vm_compute. discriminate.
  - intros H. apply negb_true_iff in H. rewrite H.
    exists s, (thousandths m e). unfold thousandths.
    destruct (Z.leb_spec 0 e) as [He|He].
    + rewrite Z.shiftl_mul_pow2 by assumption.
      assert (P : 0 < 2 ^ e) by (apply Z.pow_pos_nonneg; lia).
      split; [nia|]. split; [reflexivity|].
      assert (E : (Zpos m * 2 ^ e * 1000 # 1000 == inject_Z (Zpos m * 2 ^ e))%Q).
      { unfold Qeq, inject_Z. cbn [Qnum Qden]. lia. }
      destruct s.
      * rewrite Qabs_opp_sub, E.
        setoid_replace (inject_Z (Zpos m * 2 ^ e) - inject_Z (Zpos m * 2 ^ e))%Q
          with 0%Q by ring.
        vm_compute. discriminate.
      * rewrite E.
        setoid_replace (inject_Z (Zpos m * 2 ^ e) - inject_Z (Zpos m * 2 ^ e))%Q
          with 0%Q by ring.
        vm_compute. discriminate.
    + set (k := - e) in *.
      assert (P : 0 < 2 ^ k) by (apply Z.pow_pos_nonneg; lia).
      rewrite Z.shiftl_mul_pow2, Z.mul_1_l by lia.
      rewrite Z.shiftr_div_pow2 by lia.
      replace (1 - e) with (Z.succ k) by lia. rewrite Z.pow_succ_r by lia.
      set (T := 2000 * Zpos m + 2 ^ k).
      pose proof (Z.div_mod T (2 * 2 ^ k) ltac:(lia)) as D.
      pose proof (Z.mod_pos_bound T (2 * 2 ^ k) ltac:(lia)) as B.
      assert (N0 : 0 <= T / (2 * 2 ^ k)) by (apply Z.div_pos; lia).
      split; [assumption|]. split; [reflexivity|].
      assert (Tol : (Qabs ((T / (2 * 2 ^ k) # 1000) - (Zpos m # Z.to_pos (2 ^ k)))
                     <= 1 # 2000)%Q).
      { apply Q_tolerance; [assumption| |]; unfold T in *; nia. }
      destruct s; [rewrite Qabs_opp_sub|]; exact Tol.
Qed.

Lemma toFixed3_num x : fixable x = true ->
  string_forall is_num_char (toFixed3 shortest_digits x) = true.
Proof.
  intros H. destruct (toFixed3_fixable x H) as (s & n & Hn & -> & _).
  rewrite string_forall_app, fixed3_num by assumption.
  destruct s; reflexivity.
Qed.

End FixedFacts.

(** ** The exported text *)

Local Open Scope Z_scope.

Lemma append_assoc (a b c : string) : ((a ++ b) ++ c = a ++ (b ++ c))%string.
Proof. induction a as [|x a IH]; simpl; [reflexivity|]. rewrite IH. reflexivity. Qed.

Lemma append_nil_r (a : string) : (a ++ "")%string = a.
Proof. induction a as [|x a IH]; simpl; [reflexivity|]. rewrite IH. reflexivity. Qed.

Lemma unlines_app a b : unlines (a ++ b) = (unlines a ++ unlines b)%string.
Proof.
  induction a as [|t a IH]; simpl; [reflexivity|].
  rewrite IH, !append_assoc. reflexivity.
Qed.

Lemma split_on_unlines l : forallb no_newline l = true ->
  split_on "010" (unlines l) = (l ++ [EmptyString])%list.
Proof.
  induction l as [|t l IH]; simpl; intros H; [reflexivity|].
  apply andb_true_iff in H. destruct H as [H1 H2].
  change (nl ++ unlines l)%string with (String "010" (unlines l)).
  rewrite split_on_app by exact H1. rewrite (IH H2). reflexivity.
Qed.

Lemma split_on_unlines_app a b :
  forallb no_newline a = true -> forallb no_newline b = true ->
  split_on "010" (unlines (a ++ b)) = (a ++ b ++ [EmptyString])%list.
Proof.
  intros Ha Hb. rewrite split_on_unlines, <- app_assoc; [reflexivity|].
  rewrite forallb_app, Ha, Hb. reflexivity.
Qed.

Lemma num_no_newline s : string_forall is_num_char s = true -> no_newline s = true.
Proof. apply string_forall_impl. exact num_char_not_nl. Qed.

Lemma num_no_space s : string_forall is_num_char s = true -> no_space s = true.
Proof. apply string_forall_impl. exact num_char_not_space. Qed.

Lemma decimal_num n : string_forall is_num_char (decimal n) = true.
Proof. apply (string_forall_impl _ _ _ digit_num_char), decimal_digits. Qed.

Lemma split_on_join6 a b c d e f :
  no_space a = true -> no_space b = true -> no_space c = true ->
  no_space d = true -> no_space e = true -> no_space f = true ->
  split_on " " (join6 a b c d e f) = [a; b; c; d; e; f].
Proof.
  intros Ha Hb Hc Hd He Hf. unfold join6.
  repeat match goal with
         | |- context [(" " ++ ?t)%string] =>
             change (" " ++ t)%string with (String " " t)
         end.
  rewrite !split_on_app by assumption.
  rewrite split_on_none by assumption. reflexivity.
Qed.

Lemma no_newline_join6 a b c d e f :
  no_newline a = true -> no_newline b = true -> no_newline c = true ->
  no_newline d = true -> no_newline e = true -> no_newline f = true ->
  no_newline (join6 a b c d e f) = true.
Proof.
  intros Ha Hb Hc Hd He Hf. unfold join6, no_newline in *.
  rewrite !string_forall_app, Ha, Hb, Hc, Hd, He, Hf. reflexivity.
Qed.

Section ExportFacts.
Variable shortest_digits : JS.number -> string.

Lemma export_vertex_text pd i content : (i + 3 <= List.length (pos pd))%nat ->
  export_vertex shortest_digits pd i content
  = Some (content ++ vertex_text shortest_digits pd i ++ nl)%string.
Proof.
  intros H. unfold export_vertex.
  rewrite !(nth_error_nth' (pos pd) nan) by lia.
  unfold vertex_line, vertex_text, join6, get_number.
  rewrite !append_assoc. reflexivity.
Qed.

Lemma export_loop_texts pd c : forall i content,
  (i + 3 * c <= List.length (pos pd))%nat ->
  export_loop shortest_digits c pd i content
  = Some (content ++ unlines (texts_from shortest_digits pd c i))%string.
Proof.
  induction c as [|c IH]; intros i content H; simpl.
  - rewrite append_nil_r. reflexivity.
  - rewrite export_vertex_text by lia. rewrite IH by lia.
    rewrite !append_assoc. reflexivity.
Qed.

Lemma texts_from_length pd c i : List.length (texts_from shortest_digits pd c i) = c.
Proof. revert i. induction c as [|c IH]; intros i; simpl; [|rewrite IH]; reflexivity. Qed.

Lemma texts_from_nth pd c : forall i j, (j < c)%nat ->
  nth j (texts_from shortest_digits pd c i) EmptyString = vertex_text shortest_digits pd (i + 3 * j).
Proof.
  induction c as [|c IH]; intros i j H; [lia|].
  destruct j as [|j]; simpl.
  - rewrite Nat.add_0_r. reflexivity.
  - rewrite IH by lia. f_equal. lia.
Qed.

Lemma ply_header_lines count N :
  Number_toString shortest_digits count = decimal N ->
  ply_header shortest_digits count = unlines (header_lines N).
Proof.
  intros E. unfold ply_header, header_lines, unlines. rewrite E.
  rewrite !append_assoc. reflexivity.
Qed.

Lemma header_lines_no_newline N : forallb no_newline (header_lines N) = true.
Proof.
  unfold header_lines. cbn [forallb].
  replace (no_newline ("element vertex " ++ decimal N)) with true; [reflexivity|].
  symmetry. pose proof (num_no_newline _ (decimal_num N)) as D.
  unfold no_newline in *. rewrite string_forall_app, D. reflexivity.
Qed.

(** A colour byte that is not NaN prints as the decimal of an integer
    from 0 to 255. *)
Lemma uchar_text c : is_nan c = false ->
  exists k : N,
    (k <= 255)%N
    /\ uchar c = JS.of_int (Z.of_N k)
    /\ Number_toString shortest_digits (uchar c) = decimal k.
Proof.
  intros Hc. destruct (uchar_cases c) as [[N _]|[_ (k & Hk & E)]].
  - rewrite is_nan_mul_255 in N. congruence.
  - exists (Z.to_N k). rewrite Z2N.id by lia. split; [lia|]. split; [assumption|].
    rewrite E. apply Number_toString_of_int. lia.
Qed.

End ExportFacts.

Section LineFacts.
Variable shortest_digits : JS.number -> string.

Lemma get_number_In (arr : list JS.number) i : (i < List.length arr)%nat ->
  In (get_number arr i) arr.
Proof. intros H. apply nth_In. assumption. Qed.

(** One exported line reads back as three coordinates within half a
    thousandth of the stored ones and the three colour bytes. *)
Lemma vertex_text_parse pd i :
  (i + 3 <= List.length (pos pd))%nat -> (i + 3 <= List.length (col pd))%nat ->
  (forall x, In x (pos pd) -> fixable x = true) ->
  (forall c, In c (col pd) -> is_nan c = false) ->
  no_newline (vertex_text shortest_digits pd i) = true
  /\ exists qx qy qz r g b,
       parse_vertex (vertex_text shortest_digits pd i) = Some (qx, qy, qz, r, g, b)
       /\ (Qabs (qx - F2Q (get_number (pos pd) i)) <= 1 # 2000)%Q
       /\ (Qabs (qy - F2Q (get_number (pos pd) (i + 1))) <= 1 # 2000)%Q
       /\ (Qabs (qz - F2Q (get_number (pos pd) (i + 2))) <= 1 # 2000)%Q
       /\ (r <= 255)%N /\ JS.of_int (Z.of_N r) = uchar (get_number (col pd) i)
       /\ (g <= 255)%N /\ JS.of_int (Z.of_N g) = uchar (get_number (col pd) (i + 1))
       /\ (b <= 255)%N /\ JS.of_int (Z.of_N b) = uchar (get_number (col pd) (i + 2)).
Proof.
  intros Hp Hc Hfix Hnan.
  assert (Fx : fixable (get_number (pos pd) i) = true)
    by (apply Hfix, get_number_In; lia).
  assert (Fy : fixable (get_number (pos pd) (i + 1)) = true)
    by (apply Hfix, get_number_In; lia).
  assert (Fz : fixable (get_number (pos pd) (i + 2)) = true)
    by (apply Hfix, get_number_In; lia).
  destruct (uchar_text shortest_digits (get_number (col pd) i))
    as (r & Hr & Er & Tr); [apply Hnan, get_number_In; lia|].
  destruct (uchar_text shortest_digits (get_number (col pd) (i + 1)))
    as (g & Hg & Eg & Tg); [apply Hnan, get_number_In; lia|].
  destruct (uchar_text shortest_digits (get_number (col pd) (i + 2)))
    as (b & Hb & Eb & Tb); [apply Hnan, get_number_In; lia|].
  pose proof (toFixed3_num shortest_digits _ Fx) as Nx.
  pose proof (toFixed3_num shortest_digits _ Fy) as Ny.
  pose proof (toFixed3_num shortest_digits _ Fz) as Nz.
  destruct (toFixed3_fixable shortest_digits _ Fx) as (sx & nx & Px & Ex & Qx).
  destruct (toFixed3_fixable shortest_digits _ Fy) as (sy & ny & Py & Ey & Qy).
  destruct (toFixed3_fixable shortest_digits _ Fz) as (sz & nz & Pz & Ez & Qz).
  unfold vertex_text. rewrite Tr, Tg, Tb. split.
  - apply no_newline_join6; apply num_no_newline;
      assumption || apply decimal_num.
  - unfold parse_vertex.
    rewrite split_on_join6
      by (apply num_no_space; assumption || apply decimal_num).
    rewrite Ex, Ey, Ez, !parse_fixed3_fixed3, !parse_nat_decimal by assumption.
    do 6 eexists. split; [reflexivity|].
    rewrite <- Er, <- Eg, <- Eb. repeat split; assumption.
Qed.

End LineFacts.

(** ** The claims about the export *)

(** C1, as stated, fails: for a cloud with no points the export writes
    no file, whatever the digit generator. *)
Lemma C1_empty_cloud_writes_nothing :
  ~ exists shortest_digits content,
      exportPLY shortest_digits (Some {| pos := []; col := [] |})
      = Download content.
Proof. intros (sd & content & H). discriminate. Qed.

(** C1, amended: exporting a cloud with no points, or exporting before
    any cloud exists, is not an error, and it produces no output: the
    export returns before it writes anything. *)
Theorem C1_empty_export_is_silent (shortest_digits : JS.number -> string)
    (colours : list JS.number) :
  exportPLY shortest_digits (Some {| pos := []; col := colours |}) = NoFile
  /\ exportPLY shortest_digits None = NoFile.
Proof. split; reflexivity. Qed.

(** C6, as stated, fails for [N = 0]: no header is written at all. *)
Lemma C6_zero_points_no_header :
  exportPLY (fun _ => EmptyString) (Some {| pos := []; col := [] |}) = NoFile
  /\ forall content,
       exportPLY (fun _ => EmptyString) (Some {| pos := []; col := [] |})
       <> Download content.
Proof. split; [reflexivity|]. intros content H. discriminate. Qed.

(** C6, amended: for a cloud of [N >= 1] points whose coordinates are
    finite and below [10^21] in magnitude and whose colours are not NaN,
    the export writes the ten header lines with [element vertex N],
    then exactly [N] vertex lines; line [j] reads back as the position
    of point [j] within half a thousandth per coordinate and as the
    colour bytes [min(255, max(0, floor(channel * 255)))]. *)
Theorem C6_export_roundtrip (shortest_digits : JS.number -> string)
    (pd : particles) (N : nat) :
  (1 <= N)%nat ->
  List.length (pos pd) = (3 * N)%nat ->
  List.length (col pd) = (3 * N)%nat ->
  (Z.of_nat (3 * N) < 2 ^ 32)%Z ->
  (forall x, In x (pos pd) -> fixable x = true) ->
  (forall c, In c (col pd) -> is_nan c = false) ->
  exists content texts,
    exportPLY shortest_digits (Some pd) = Download content
    /\ split_on "010" content
       = (header_lines (N.of_nat N) ++ texts ++ [EmptyString])%list
    /\ List.length texts = N
    /\ forall j, (j < N)%nat ->
         exists qx qy qz r g b,
           parse_vertex (nth j texts EmptyString) = Some (qx, qy, qz, r, g, b)
           /\ (Qabs (qx - F2Q (get_number (pos pd) (3 * j))) <= 1 # 2000)%Q
           /\ (Qabs (qy - F2Q (get_number (pos pd) (3 * j + 1))) <= 1 # 2000)%Q
           /\ (Qabs (qz - F2Q (get_number (pos pd) (3 * j + 2))) <= 1 # 2000)%Q
           /\ (r <= 255)%N
           /\ JS.of_int (Z.of_N r) = uchar (get_number (col pd) (3 * j))
           /\ (g <= 255)%N
           /\ JS.of_int (Z.of_N g) = uchar (get_number (col pd) (3 * j + 1))
           /\ (b <= 255)%N
           /\ JS.of_int (Z.of_N b) = uchar (get_number (col pd) (3 * j + 2)).
Proof.
  intros HN Hpos Hcol Hlen Hfix Hnan.
  exists (unlines (header_lines (N.of_nat N)
                   ++ texts_from shortest_digits pd N 0))%list,
         (texts_from shortest_digits pd N 0).
  assert (Line : forall j, (j < N)%nat ->
            no_newline (vertex_text shortest_digits pd (3 * j)) = true
            /\ exists qx qy qz r g b,
                 parse_vertex (vertex_text shortest_digits pd (3 * j))
                 = Some (qx, qy, qz, r, g, b)
                 /\ (Qabs (qx - F2Q (get_number (pos pd) (3 * j))) <= 1 # 2000)%Q
                 /\ (Qabs (qy - F2Q (get_number (pos pd) (3 * j + 1))) <= 1 # 2000)%Q
                 /\ (Qabs (qz - F2Q (get_number (pos pd) (3 * j + 2))) <= 1 # 2000)%Q
                 /\ (r <= 255)%N
                 /\ JS.of_int (Z.of_N r) = uchar (get_number (col pd) (3 * j))
                 /\ (g <= 255)%N
                 /\ JS.of_int (Z.of_N g) = uchar (get_number (col pd) (3 * j + 1))
                 /\ (b <= 255)%N
                 /\ JS.of_int (Z.of_N b) = uchar (get_number (col pd) (3 * j + 2))).
  { intros j Hj. apply vertex_text_parse; try assumption; lia. }
  split; [|split; [|split]].
  - unfold exportPLY. rewrite Hpos.
    destruct (Nat.eqb_spec (3 * N) 0) as [E|_]; [lia|].
    replace ((3 * N + 2) / 3)%nat with N
      by (apply Nat.div_unique with (r := 2%nat); lia).
    rewrite Nat2Z.inj_mul. change (Z.of_nat 3) with 3%Z.
    rewrite of_int_div_3 by lia.
    rewrite (ply_header_lines shortest_digits _ (N.of_nat N)).
    2:{ rewrite Number_toString_of_int by lia. f_equal. lia. }
    rewrite export_loop_texts by lia.
    rewrite unlines_app. reflexivity.
  - apply split_on_unlines_app.
    + apply header_lines_no_newline.
    + apply forallb_forall. intros t Ht.
      destruct (In_nth _ _ EmptyString Ht) as (j & Hj & <-).
      rewrite texts_from_length in Hj.
      rewrite texts_from_nth by assumption. apply Line. assumption.
  - apply texts_from_length.
  - intros j Hj. rewrite texts_from_nth by assumption.
    apply Line. assumption.
Qed.

Lemma C6_export_roundtrip_witness :
  exists content texts,
    exportPLY (fun _ => EmptyString) (Some two_points) = Download content
    /\ split_on "010" content
       = (header_lines (N.of_nat 2) ++ texts ++ [EmptyString])%list
    /\ List.length texts = 2%nat
    /\ forall j, (j < 2)%nat ->
         exists qx qy qz r g b,
           parse_vertex (nth j texts EmptyString) = Some (qx, qy, qz, r, g, b)
           /\ (Qabs (qx - F2Q (get_number (pos two_points) (3 * j))) <= 1 # 2000)%Q
           /\ (Qabs (qy - F2Q (get_number (pos two_points) (3 * j + 1))) <= 1 # 2000)%Q
           /\ (Qabs (qz - F2Q (get_number (pos two_points) (3 * j + 2))) <= 1 # 2000)%Q
           /\ (r <= 255)%N
           /\ JS.of_int (Z.of_N r) = uchar (get_number (col two_points) (3 * j))
           /\ (g <= 255)%N
           /\ JS.of_int (Z.of_N g) = uchar (get_number (col two_points) (3 * j + 1))
           /\ (b <= 255)%N
           /\ JS.of_int (Z.of_N b) = uchar (get_number (col two_points) (3 * j + 2)).
Proof.
  apply (C6_export_roundtrip (fun _ => EmptyString) two_points 2).
  - lia.
  - reflexivity.
  - reflexivity.
  - reflexivity.
  - intros x [<-|[<-|[<-|[<-|[<-|[<-|[]]]]]]]; vm_compute; reflexivity.
  - intros c [<-|[<-|[<-|[<-|[<-|[<-|[]]]]]]]; vm_compute; reflexivity.
Defined.

(** * Further properties of the pipeline *)

Local Open Scope Z_scope.

(** ** The sampler at its edges *)

(** The pass in terms of the integer cells and the bytes of the buffer. *)
Lemma sample_cells (THREE_Color : string -> rgb) (img : ImageData) (st : AppState) :
  image_ok img ->
  4 * width img * height img < 2 ^ 53 ->
  sample THREE_Color img st
  = Some
      {| pos := flat_map (fun ab => position img st (as_numbers ab))
                  (filter (fun ab => (transparencyThreshold st <=? alpha_at img ab)%float)
                     (cells img st));
         col := flat_map (fun ab => colour THREE_Color img st (as_numbers ab))
                  (filter (fun ab => (transparencyThreshold st <=? alpha_at img ab)%float)
                     (cells img st)) |}.
Proof.
  intros Hok Hsize. rewrite sample_visited by assumption.
  rewrite scan_emit. cbn [pos col empty_particles app].
  rewrite visited_cells, retained_cells, !flat_map_map by assumption.
  reflexivity.
Qed.

Lemma position_length img st xy : List.length (position img st xy) = 3%nat.
Proof.
  destruct xy as [x y]. unfold position.
  destruct (pixel img x y) as [[[r g] b] a]. reflexivity.
Qed.

Lemma colour_length THREE_Color img st xy :
  List.length (colour THREE_Color img st xy) = 3%nat.
Proof.
  destruct xy as [x y]. unfold colour.
  destruct (pixel img x y) as [[[r g] b] a].
  destruct (applyColorMode _ _ _ _ _ _ _) as [[cr cg] cb]. reflexivity.
Qed.

Lemma flat_map_length3 {A : Type} (f : A -> list JS.number) (l : list A) :
  (forall x, List.length (f x) = 3%nat) ->
  List.length (flat_map f l) = (3 * List.length l)%nat.
Proof.
  intros H. induction l as [|x l IH]; [reflexivity|].
  cbn [flat_map]. rewrite length_app, H, IH. simpl. lia.
Qed.

(** The cells when the step reaches both sides of the image, or is no
    integer at all. *)
Lemma cells_single img st :
  0 < width img -> 0 < height img ->
  match JS.to_index (step st) with
  | Some n => width img <= n /\ height img <= n
  | None => True
  end ->
  cells img st = [(0, 0)].
Proof.
  intros Hw Hh Hn. unfold cells, axisZ.
  destruct (JS.to_index (step st)) as [n|].
  - destruct Hn as [Hwn Hhn]. rewrite !multiples_big by lia.
    rewrite (proj2 (Z.ltb_lt 0 (width img)) Hw).
    rewrite (proj2 (Z.ltb_lt 0 (height img)) Hh). reflexivity.
  - rewrite (proj2 (Z.ltb_lt 0 (width img)) Hw).
    rewrite (proj2 (Z.ltb_lt 0 (height img)) Hh). reflexivity.
Qed.

Lemma sample_single (THREE_Color : string -> rgb) img st :
  image_ok img -> cells img st = [(0, 0)] ->
  sample THREE_Color img st
  = Some (visit THREE_Color img st 0%float 0%float {| pos := []; col := [] |}).
Proof.
  intros Hok E. rewrite sample_visited by assumption.
  rewrite visited_cells, E. reflexivity.
Qed.

(** A step of NaN or [+Infinity] is not rejected: the pass then looks
    at the pixel in the top left corner and at no other. *)
Theorem sample_step_not_a_stride (THREE_Color : string -> rgb)
    (img : ImageData) (st : AppState) :
  image_ok img -> 0 < width img -> 0 < height img ->
  samplingStep st = nan \/ samplingStep st = infinity ->
  sample THREE_Color img st
  = Some (visit THREE_Color img st 0%float 0%float {| pos := []; col := [] |}).
Proof.
  intros Hok Hw Hh Hs. apply sample_single; [assumption|].
  apply cells_single; try assumption.
  unfold step. destruct Hs as [-> | ->]; exact I.
Qed.

Lemma sample_step_not_a_stride_witness :
  sample white_tint white_pixel nan_step
  = Some (visit white_tint white_pixel nan_step 0%float 0%float
            {| pos := []; col := [] |}).
Proof.
  apply (sample_step_not_a_stride white_tint white_pixel nan_step).
  - unfold image_ok; simpl; lia.
  - simpl; lia.
  - simpl; lia.
  - left. reflexivity.
Defined.

(** A step as large as the image in both directions samples the top
    left pixel only. *)
Theorem sample_step_covers_image (THREE_Color : string -> rgb)
    (img : ImageData) (st : AppState) (n : Z) :
  image_ok img -> 0 < width img -> 0 < height img ->
  JS.to_index (step st) = Some n ->
  width img <= n -> height img <= n ->
  sample THREE_Color img st
  = Some (visit THREE_Color img st 0%float 0%float {| pos := []; col := [] |}).
Proof.
  intros Hok Hw Hh Hn Hwn Hhn. apply sample_single; [assumption|].
  apply cells_single; try assumption. rewrite Hn. split; assumption.
Qed.

Lemma sample_step_covers_image_witness :
  sample white_tint white_pixel defaults
  = Some (visit white_tint white_pixel defaults 0%float 0%float
            {| pos := []; col := [] |}).
Proof.
  apply (sample_step_covers_image white_tint white_pixel defaults 3).
  - unfold image_ok; simpl; lia.
  - simpl; lia.
  - simpl; lia.
  - vm_compute. reflexivity.
  - simpl; lia.
  - simpl; lia.
Defined.

(** ** Steps below two *)

Lemma Prim2SF_two : Prim2SF 2%float = S754_finite false 4503599627370496 (-51).
Proof. reflexivity. Qed.

(** A step below 2 that is a number (1.5, 0.3, 0, a negative one) is
    clamped to 1. *)
Lemma step_below_two st :
  is_nan (samplingStep st) = false ->
  (samplingStep st <? 2)%float = true ->
  step st = 1%float.
Proof.
  intros Hnan L. unfold step. set (s := samplingStep st) in *.
  destruct (Math_max_1_cases (JS.Math_floor s)) as [[N _]|[[Hlt _]|E]];
    [rewrite is_nan_floor in N; congruence| |exact E].
  exfalso.
  rewrite FloatAxioms.ltb_spec, Prim2SF_one in Hlt.
  rewrite FloatAxioms.ltb_spec, Prim2SF_two in L.
  unfold SFltb in Hlt, L. unfold JS.Math_floor in Hlt.
  destruct (Prim2SF s) as [sg|sg| |sg m e] eqn:E.
  - rewrite E in Hlt. discriminate.
  - rewrite E in Hlt. destruct sg; discriminate.
  - discriminate.
  - destruct (Z.leb_spec 0 e) as [He|He].
    + rewrite E in Hlt. destruct sg; [discriminate|].
      cbn [SFcompare] in L.
      destruct (Z.compare_spec e (-51)); try discriminate; lia.
    + destruct (valid_finite _ _ _ _ E) as (Hd & _ & _).
      destruct (floor_quotient _ _ _ _ E He) as [Q0 Q1].
      set (q := Z.shiftr (Zpos m) (- e)) in *.
      destruct sg.
      * assert (F : forall z, 0 <= z < 2 ^ 53 ->
                    SFcompare (S754_finite false 4503599627370496 (-52))
                      (Prim2SF (- JS.of_int z)) = Some Gt).
        { intros z Hz. rewrite FloatAxioms.opp_spec.
          destruct (Z.eq_dec z 0) as [->|Hz0]; [reflexivity|].
          destruct (Prim2SF_of_int z) as (mz & -> & _); [lia|reflexivity]. }
        destruct (Z.shiftl q (- e) =? Zpos m);
          rewrite F in Hlt by lia; discriminate.
      * assert (Hq : (1 <? JS.of_int q)%float = true).
        { rewrite FloatAxioms.ltb_spec, Prim2SF_one. unfold SFltb. exact Hlt. }
        change 1%float with (JS.of_int 1) in Hq.
        rewrite of_int_ltb in Hq by lia. apply Z.ltb_lt in Hq.
        assert (Hm : 2 * 2 ^ (- e) <= Zpos m).
        { unfold q in Hq. rewrite Z.shiftr_div_pow2 in Hq by lia.
          assert (P : 0 < 2 ^ (- e)) by (apply Z.pow_pos_nonneg; lia).
          pose proof (Z.mul_div_le (Zpos m) (2 ^ (- e)) P). nia. }
        assert (Hm53 : Zpos m < 2 ^ 53).
        { pose proof (dig_bounds (Zpos m) (Pos2Z.is_pos m)) as [_ B].
          apply Z.lt_le_trans with (1 := B). apply Z.pow_le_mono_r; lia. }
        assert (He51 : -51 <= e).
        { destruct (Z.le_gt_cases (-51) e) as [|G]; [assumption|exfalso].
          assert (2 ^ 52 <= 2 ^ (- e)) by (apply Z.pow_le_mono_r; lia).
          change (2 ^ 53) with (2 * 2 ^ 52) in Hm53. lia. }
        cbn [SFcompare] in L.
        destruct (Z.compare_spec e (-51)) as [Ee|Ee|Ee]; try discriminate; try lia.
        subst e. change (2 ^ (- -51)) with (2 ^ 51) in Hm.
        rewrite Pos.compare_cont_spec, Pos2Z.inj_compare in L.
        destruct (Z.compare_spec (Zpos m) 4503599627370496) as [C|C|C];
          try discriminate.
        change 4503599627370496 with (2 * 2 ^ 51) in C. lia.
Qed.

Lemma stride_from_one c : forall a,
  stride_from c a 1 = map (fun k => a + Z.of_nat k) (seq 0 c).
Proof.
  induction c as [|c IH]; intros a; [reflexivity|].
  cbn [stride_from seq map]. rewrite Z.add_0_r. f_equal.
  rewrite IH, <- seq_shift, map_map. apply map_ext. intros k. lia.
Qed.

Lemma multiples_one bound : multiples 1 bound = upto bound.
Proof.
  unfold multiples, upto. rewrite stride_from_one.
  replace ((bound + 1 - 1) / 1) with bound by (rewrite Z.div_1_r; lia).
  apply map_ext. intros k. lia.
Qed.

(** With a step below 2 the pass looks at every pixel of the image, row
    by row, and keeps those whose alpha byte reaches the threshold. *)
Theorem sample_step_below_two (THREE_Color : string -> rgb)
    (img : ImageData) (st : AppState) :
  image_ok img ->
  4 * width img * height img < 2 ^ 53 ->
  is_nan (samplingStep st) = false ->
  (samplingStep st <? 2)%float = true ->
  let every_pixel :=
    flat_map (fun b => map (fun a => (a, b)) (upto (width img)))
      (upto (height img)) in
  let kept :=
    filter (fun ab => (transparencyThreshold st <=? alpha_at img ab)%float)
      every_pixel in
  sample THREE_Color img st
  = Some {| pos := flat_map (fun ab => position img st (as_numbers ab)) kept;
            col := flat_map (fun ab => colour THREE_Color img st (as_numbers ab))
                     kept |}.
Proof.
  intros Hok Hsize Hnan L. cbv zeta.
  rewrite sample_cells by assumption.
  unfold cells, axisZ. rewrite (step_below_two st Hnan L).
  change (JS.to_index 1%float) with (Some 1). cbv beta iota.
  rewrite !multiples_one. reflexivity.
Qed.

Lemma sample_step_below_two_witness :
  let every_pixel :=
    flat_map (fun b => map (fun a => (a, b)) (upto (width white_pixel)))
      (upto (height white_pixel)) in
  let kept :=
    filter (fun ab => (transparencyThreshold fine_step <=? alpha_at white_pixel ab)%float)
      every_pixel in
  sample white_tint white_pixel fine_step
  = Some {| pos := flat_map (fun ab => position white_pixel fine_step (as_numbers ab)) kept;
            col := flat_map
                     (fun ab => colour white_tint white_pixel fine_step (as_numbers ab))
                     kept |}.
Proof.
  apply (sample_step_below_two white_tint white_pixel fine_step).
  - unfold image_ok; simpl; lia.
  - reflexivity.
  - reflexivity.
  - reflexivity.
Defined.

(** ** How many points a pass can give *)

Lemma stride_from_length c a n : List.length (stride_from c a n) = c.
Proof. revert a. induction c as [|c IH]; intros a; simpl; [|rewrite IH]; reflexivity. Qed.

Lemma product_length {A B C : Type} (f : A -> B -> C) (l1 : list A) (l2 : list B) :
  List.length (flat_map (fun b => map (fun a => f a b) l1) l2)
  = (List.length l1 * List.length l2)%nat.
Proof.
  induction l2 as [|b l2 IH]; simpl; [lia|].
  rewrite length_app, length_map, IH. lia.
Qed.

(** With the integer step [n] a pass gives at most
    [ceil(w/n) * ceil(h/n)] points. *)
Theorem sample_point_count (THREE_Color : string -> rgb)
    (img : ImageData) (st : AppState) (n : Z) :
  image_ok img ->
  JS.to_index (step st) = Some n ->
  exists cloud,
    sample THREE_Color img st = Some cloud
    /\ (List.length (pos cloud)
        <= 3 * (strides n (width img) * strides n (height img)))%nat
    /\ (List.length (col cloud)
        <= 3 * (strides n (width img) * strides n (height img)))%nat.
Proof.
  intros Hok Hn. eexists. split; [apply sample_visited; assumption|].
  rewrite scan_emit. cbn [pos col empty_particles app].
  rewrite (flat_map_length3 _ _ (position_length img st)).
  rewrite (flat_map_length3 _ _ (colour_length THREE_Color img st)).
  assert (L : (List.length (filter (retained img st) (visited img st))
               <= strides n (width img) * strides n (height img))%nat).
  { eapply Nat.le_trans; [apply filter_length_le|].
    rewrite visited_cells, length_map. unfold cells, axisZ. rewrite Hn.
    rewrite (product_length (fun a b => (a, b))).
    unfold multiples, strides. rewrite !stride_from_length. lia. }
  split; lia.
Qed.

Lemma sample_point_count_witness :
  exists cloud,
    sample white_tint white_pixel defaults = Some cloud
    /\ (List.length (pos cloud)
        <= 3 * (strides 3 (width white_pixel) * strides 3 (height white_pixel)))%nat
    /\ (List.length (col cloud)
        <= 3 * (strides 3 (width white_pixel) * strides 3 (height white_pixel)))%nat.
Proof.
  apply (sample_point_count white_tint white_pixel defaults 3).
  - unfold image_ok; simpl; lia.
  - vm_compute. reflexivity.
Defined.

(** ** The alpha threshold at its ends *)

Lemma leb_nan_l x y : is_nan x = true -> (x <=? y)%float = false.
Proof.
  rewrite is_nan_spec, FloatAxioms.leb_spec. unfold SFleb.
  destruct (Prim2SF x); try discriminate. reflexivity.
Qed.

(** A threshold that is not a number keeps no pixel: the cloud is
    empty. *)
Theorem sample_threshold_nan (THREE_Color : string -> rgb)
    (img : ImageData) (st : AppState) :
  image_ok img ->
  is_nan (transparencyThreshold st) = true ->
  sample THREE_Color img st = Some {| pos := []; col := [] |}.
Proof.
  intros Hok Hnan. rewrite sample_visited by assumption. rewrite scan_emit.
  replace (filter (retained img st) (visited img st)) with (@nil (JS.number * JS.number));
    [reflexivity|].
  symmetry. induction (visited img st) as [|xy l IH]; [reflexivity|].
  cbn [filter]. unfold retained at 1. rewrite leb_nan_l by assumption. exact IH.
Qed.

Lemma sample_threshold_nan_witness :
  sample white_tint white_pixel
    {| samplingStep := 1%float; particleSize := 1%float; zExtrusion := 1%float;
       transparencyThreshold := nan; colorMode := ORIGINAL;
       brightness := 1%float; tintColor := "#ffffff" |}
  = Some {| pos := []; col := [] |}.
Proof.
  apply (sample_threshold_nan white_tint white_pixel).
  - unfold image_ok; simpl; lia.
  - reflexivity.
Defined.

Lemma leb_0_of_int k : 0 <= k < 2 ^ 53 -> (0 <=? JS.of_int k)%float = true.
Proof.
  intros Hk. rewrite FloatAxioms.leb_spec. unfold SFleb.
  change (Prim2SF 0%float) with (S754_zero false).
  destruct (Z.eq_dec k 0) as [->|Hk0]; [reflexivity|].
  destruct (Prim2SF_of_int k) as (m & -> & _); [lia|reflexivity].
Qed.

Lemma byte_value_bound (b : byte) : 0 <= Z.of_N (Byte.to_N b) <= 255.
Proof. pose proof (Byte.to_N_bounded b). lia. Qed.

(** Inside the buffer every read gives the byte stored there. *)
Lemma byte_at_inside bytes n : 0 <= n < Z.of_nat (List.length bytes) ->
  exists k, 0 <= k <= 255 /\ byte_at bytes n = JS.of_int k.
Proof.
  intros Hn. unfold byte_at.
  destruct (nth_error bytes (Z.to_nat n)) as [b|] eqn:E.
  - exists (Z.of_N (Byte.to_N b)). split; [apply byte_value_bound|reflexivity].
  - apply nth_error_None in E. lia.
Qed.

(** With threshold 0 and a complete buffer every visited pixel becomes
    a point. *)
Theorem sample_threshold_zero (THREE_Color : string -> rgb)
    (img : ImageData) (st : AppState) :
  image_ok img -> buffer_complete img ->
  transparencyThreshold st = 0%float ->
  sample THREE_Color img st
  = Some {| pos := flat_map (fun ab => position img st (as_numbers ab))
                     (cells img st);
            col := flat_map (fun ab => colour THREE_Color img st (as_numbers ab))
                     (cells img st) |}.
Proof.
  intros Hok [Hlen Hsize] Hthr. rewrite sample_cells by assumption.
  replace (filter (fun ab => (transparencyThreshold st <=? alpha_at img ab)%float)
             (cells img st)) with (cells img st); [reflexivity|].
  symmetry. pose proof (cells_In img st) as R.
  induction (cells img st) as [|[a b] l IH]; [reflexivity|].
  destruct (R a b Hok (or_introl eq_refl)) as [Ha Hb].
  cbn [filter]. rewrite Hthr at 1. unfold alpha_at, rgba_at. cbn [fst snd].
  destruct (byte_at_inside (data img) (4 * (b * width img + a) + 3))
    as (k & Hk & ->); [nia|].
  rewrite leb_0_of_int by lia. f_equal.
  apply IH. intros a' b' H' I. apply R; [assumption|right; assumption].
Qed.

Lemma sample_threshold_zero_witness :
  sample white_tint white_pixel (scenario 1.5%float 400%float)
  = Some {| pos := flat_map
                     (fun ab => position white_pixel (scenario 1.5%float 400%float)
                                  (as_numbers ab))
                     (cells white_pixel (scenario 1.5%float 400%float));
            col := flat_map
                     (fun ab => colour white_tint white_pixel
                                  (scenario 1.5%float 400%float) (as_numbers ab))
                     (cells white_pixel (scenario 1.5%float 400%float)) |}.
Proof.
  apply (sample_threshold_zero white_tint white_pixel (scenario 1.5%float 400%float)).
  - unfold image_ok; simpl; lia.
  - unfold buffer_complete; simpl; lia.
  - reflexivity.
Defined.

(** ** Depth *)

Lemma luma_all : forallb luma_in_range (map Z.of_nat (seq 0 766)) = true.
Proof. vm_compute. reflexivity. Qed.

Lemma luma_range s : 0 <= s <= 765 ->
  (0 <=? luma_of_sum s)%float = true /\ (luma_of_sum s <=? 1)%float = true.
Proof.
  intros Hs. pose proof luma_all as A. rewrite forallb_forall in A.
  specialize (A s). unfold luma_in_range in A.
  apply andb_true_iff. apply A. apply in_map_iff.
  exists (Z.to_nat s). split; [lia|]. apply in_seq. lia.
Qed.

(** The third coordinate of the point of a pixel is
    [luma * zExtrusion * 0.02], where [luma] is the sum of the three
    colour bytes the image holds for the pixel divided by [3 * 255]; and
    this [luma] lies between 0 and 1 whatever the bytes are. *)
Theorem depth_luma_range (img : ImageData) (st : AppState) (a b : Z) :
  buffer_complete img ->
  0 <= a < width img -> 0 <= b < height img ->
  let '(r, g, bl, _) := rgba_at img (a, b) in
  let luma := ((r + g + bl) / (3 * 255))%float in
  nth 2 (position img st (as_numbers (a, b))) nan
  = (luma * zExtrusion st * 0.02)%float
  /\ (0 <=? luma)%float = true /\ (luma <=? 1)%float = true.
Proof.
  intros [Hlen Hsize] Ha Hb.
  change (as_numbers (a, b)) with (JS.of_int a, JS.of_int b).
  unfold position. rewrite pixel_row_major by assumption.
  unfold rgba_at. cbn [fst snd].
  set (n := 4 * (b * width img + a)).
  destruct (byte_at_inside (data img) n) as (r & Hr & ->); [unfold n; nia|].
  destruct (byte_at_inside (data img) (n + 1)) as (g & Hg & ->); [unfold n; nia|].
  destruct (byte_at_inside (data img) (n + 2)) as (bl & Hbl & ->); [unfold n; nia|].
  cbv zeta. split; [reflexivity|].
  rewrite !of_int_add by lia. apply luma_range. lia.
Qed.

Lemma depth_luma_range_witness :
  let '(r, g, bl, _) := rgba_at strip (2, 1) in
  let luma := ((r + g + bl) / (3 * 255))%float in
  nth 2 (position strip coarse_step (as_numbers (2, 1))) nan
  = (luma * zExtrusion coarse_step * 0.02)%float
  /\ (0 <=? luma)%float = true /\ (luma <=? 1)%float = true.
Proof.
  apply (depth_luma_range strip coarse_step 2 1).
  - unfold buffer_complete; simpl; lia.
  - simpl; lia.
  - simpl; lia.
Defined.

(** ** Colours from the transform to the file *)

Lemma bytes_In v : 0 <= v <= 255 -> In v (map Z.of_nat (seq 0 256)).
Proof.
  intros Hv. apply in_map_iff. exists (Z.to_nat v). split; [lia|].
  apply in_seq. lia.
Qed.

Lemma original_keeps_all : forallb original_keeps (map Z.of_nat (seq 0 256)) = true.
Proof. vm_compute. reflexivity. Qed.

Lemma original_channel v : 0 <= v <= 255 ->
  uchar (JS.of_int v / 255 * 1)%float = JS.of_int v.
Proof.
  intros Hv. pose proof original_keeps_all as A. rewrite forallb_forall in A.
  specialize (A v (bytes_In v Hv)). unfold original_keeps in A.
  apply FloatAxioms.Leibniz.eqb_spec in A. exact A.
Qed.

(** Under ORIGINAL with brightness 1 and white tint the exporter writes
    for a pixel the three colour bytes the image holds for it: dividing
    by 255, multiplying by 255 and flooring loses nothing. *)
Theorem original_bytes_survive_export (THREE_Color : string -> rgb)
    (img : ImageData) (st : AppState) (a b : Z) :
  buffer_complete img ->
  0 <= a < width img -> 0 <= b < height img ->
  colorMode st = ORIGINAL ->
  brightness st = 1%float ->
  tintColor st = "#ffffff"%string ->
  map uchar (colour THREE_Color img st (as_numbers (a, b)))
  = (let '(r, g, bl, _) := rgba_at img (a, b) in [r; g; bl]).
Proof.
  intros [Hlen Hsize] Ha Hb Hm Hbr Ht.
  change (as_numbers (a, b)) with (JS.of_int a, JS.of_int b).
  unfold colour. rewrite pixel_row_major by assumption.
  unfold rgba_at. cbn [fst snd].
  set (n := 4 * (b * width img + a)).
  destruct (byte_at_inside (data img) n) as (r & Hr & ->); [unfold n; nia|].
  destruct (byte_at_inside (data img) (n + 1)) as (g & Hg & ->); [unfold n; nia|].
  destruct (byte_at_inside (data img) (n + 2)) as (bl & Hbl & ->); [unfold n; nia|].
  rewrite Hm, Hbr, Ht. unfold applyColorMode.
  cbn [String.eqb Ascii.eqb Bool.eqb map].
  rewrite !original_channel by assumption. reflexivity.
Qed.

Lemma original_bytes_survive_export_witness :
  map uchar (colour white_tint white_pixel defaults (as_numbers (0, 0)))
  = (let '(r, g, bl, _) := rgba_at white_pixel (0, 0) in [r; g; bl]).
Proof.
  apply (original_bytes_survive_export white_tint white_pixel defaults 0 0).
  - unfold buffer_complete; simpl; lia.
  - simpl; lia.
  - simpl; lia.
  - reflexivity.
  - reflexivity.
  - reflexivity.
Defined.

Lemma mono_near_all : forallb mono_near (map Z.of_nat (seq 0 256)) = true.
Proof. vm_compute. reflexivity. Qed.

(** Under MONO with brightness 1 and white tint a gray pixel
    [(v, v, v)] gets three equal channels, and the exporter writes it as
    [v] or as [v - 1]: the three weights do not add up to 1 in binary64,
    and white itself is written as 254. *)
Theorem mono_gray_loses_at_most_one (THREE_Color : string -> rgb) (v : Z) :
  0 <= v <= 255 ->
  (let '(cr, cg, cb) :=
     applyColorMode THREE_Color (JS.of_int v) (JS.of_int v) (JS.of_int v)
       MONO 1%float "#ffffff" in
   cr = cg /\ cg = cb
   /\ (uchar cr = JS.of_int v \/ uchar cr = JS.of_int (v - 1)))
  /\ gray_byte MONO 255 = JS.of_int 254.
Proof.
  intros Hv. split; [|reflexivity].
  pose proof mono_near_all as A. rewrite forallb_forall in A.
  specialize (A v (bytes_In v Hv)). unfold mono_near, gray_byte in A.
  unfold applyColorMode in *. cbn [String.eqb Ascii.eqb Bool.eqb] in *.
  split; [reflexivity|]. split; [reflexivity|].
  apply orb_true_iff in A.
  destruct A as [A|A]; apply FloatAxioms.Leibniz.eqb_spec in A; auto.
Qed.

Lemma mono_gray_loses_at_most_one_witness :
  (let '(cr, cg, cb) :=
     applyColorMode white_tint (JS.of_int 5) (JS.of_int 5) (JS.of_int 5)
       MONO 1%float "#ffffff" in
   cr = cg /\ cg = cb
   /\ (uchar cr = JS.of_int 5 \/ uchar cr = JS.of_int (5 - 1)))
  /\ gray_byte MONO 255 = JS.of_int 254.
Proof.
  apply (mono_gray_loses_at_most_one white_tint 5). lia.
Defined.

(** ** The clamped presets *)

(** Rounding a mantissa that is already canonical at the exponent it is
    scaled to. *)
Lemma binary_round_aux_canonical s m e k :
  0 <= k ->
  bounded prec emax m (e + k) = true ->
  binary_round_aux prec emax s (Zpos m * 2 ^ k) e loc_Exact
  = S754_finite s m (e + k).
Proof.
  intros Hk B. unfold bounded, canonical_mantissa in B.
  apply andb_true_iff in B. destruct B as [C L].
  apply Z.eqb_eq in C.
  assert (P : 0 < Zpos m * 2 ^ k) by (apply Z.mul_pos_pos; lia).
  assert (D : dig (Zpos m * 2 ^ k) = dig (Zpos m) + k)
    by (apply dig_mul_pow2; lia).
  unfold binary_round_aux. unfold shr_fexp at 1.
  destruct (Zpos m * 2 ^ k) as [|p|p] eqn:Ep; try lia.
  unfold Zdigits2 at 1. rewrite Zdigits_log2, D, <- Zdigits_log2.
  replace (Zpos (digits2_pos m) + k + e) with (Zpos (digits2_pos m) + (e + k)) by lia.
  rewrite C. replace (e + k - e) with k by lia.
  unfold shr_record_of_loc. rewrite <- Ep, shr_exact by lia.
  cbn [shr_m shr_r shr_s loc_of_shr_record round_nearest_even].
  unfold shr_fexp, Zdigits2. rewrite C.
  replace (e + k - (e + k)) with 0 by lia.
  cbn [shr shr_record_of_loc shr_m]. rewrite L. reflexivity.
Qed.

(** Multiplying by one changes no number. *)
Lemma mul_one x : (x * 1)%float = x.
Proof.
  apply Prim2SF_inj. rewrite FloatAxioms.mul_spec, Prim2SF_one.
  pose proof (Prim2SF_valid x) as V.
  destruct (Prim2SF x) as [s|s| |s m e]; try (destruct s; reflexivity);
    try reflexivity.
  unfold SF64mul, SFmul. rewrite xorb_false_r.
  rewrite Pos2Z.inj_mul. change (Zpos 4503599627370496) with (2 ^ 52).
  rewrite binary_round_aux_canonical; [f_equal; lia|lia|].
  replace (e + -52 + 52) with e by lia. exact V.
Qed.

Lemma leb_refl_one : (1 <=? 1)%float = true.
Proof. reflexivity. Qed.

(** [Math.min(1, v)] is at most 1 unless it is NaN. *)
Lemma Math_min_1_le v : is_nan v = false ->
  (JS.Math_min 1%float v <=? 1)%float = true.
Proof.
  intros Hn. unfold JS.Math_min.
  change (is_nan 1%float) with false. rewrite Hn. cbn [orb].
  destruct (1 <? v)%float eqn:A; [reflexivity|].
  destruct (v <? 1)%float eqn:B; [apply ltb_leb; assumption|].
  change (is_zero 1%float) with false. cbn [andb].
  rewrite FloatAxioms.ltb_spec, Prim2SF_one in A, B.
  rewrite FloatAxioms.leb_spec, Prim2SF_one.
  rewrite is_nan_spec in Hn. unfold SFltb in A, B. unfold SFleb.
  destruct (Prim2SF v) as [s|[]| |[] m e]; try discriminate; try reflexivity.
  cbn [SFcompare] in *.
  destruct (Z.compare_spec e (-52)) as [E|E|E].
  - subst e. rewrite Z.compare_refl in A.
    rewrite Pos.compare_cont_spec in *. cbn [Pos.switch_Eq] in *.
    rewrite (Pos.compare_antisym m 4503599627370496) in A.
    destruct (m ?= 4503599627370496)%positive; try reflexivity; discriminate.
  - reflexivity.
  - rewrite (proj2 (Z.compare_lt_iff (-52) e)) in A by lia. discriminate.
Qed.

Lemma Math_min_1_nan v : is_nan (JS.Math_min 1%float v) = is_nan v.
Proof.
  unfold JS.Math_min. change (is_nan 1%float) with false. cbn [orb].
  destruct (is_nan v) eqn:E; [reflexivity|].
  destruct (1 <? v)%float; [reflexivity|].
  destruct (v <? 1)%float; [assumption|].
  change (is_zero 1%float) with false. cbn [andb]. assumption.
Qed.

Lemma clamped_channel v :
  is_nan (JS.Math_min 1%float v * 1)%float = is_nan v
  /\ (is_nan v = false -> (JS.Math_min 1%float v * 1 <=? 1)%float = true).
Proof.
  rewrite mul_one. split; [apply Math_min_1_nan|apply Math_min_1_le].
Qed.

(** With brightness 1 and white tint, SEPIA gives no channel above 1,
    and VAPORWAVE no red or blue above 1, for every input whatsoever;
    a channel is NaN only if the clamped sum was. *)
Theorem clamped_presets_stay_below_one (THREE_Color : string -> rgb)
    (r g b : JS.number) :
  (let '(cr, cg, cb) :=
     applyColorMode THREE_Color r g b SEPIA 1%float "#ffffff" in
   (is_nan cr || (cr <=? 1)%float) && (is_nan cg || (cg <=? 1)%float)
   && (is_nan cb || (cb <=? 1)%float) = true)
  /\ (let '(cr, cg, cb) :=
        applyColorMode THREE_Color r g b VAPORWAVE 1%float "#ffffff" in
      (is_nan cr || (cr <=? 1)%float) && (is_nan cb || (cb <=? 1)%float) = true).
Proof.
  assert (C : forall v,
             is_nan (JS.Math_min 1%float v * 1)%float
             || (JS.Math_min 1%float v * 1 <=? 1)%float = true).
  { intros v. destruct (clamped_channel v) as [N L]. rewrite N.
    destruct (is_nan v); [reflexivity|]. apply L. reflexivity. }
  unfold applyColorMode. cbn [String.eqb Ascii.eqb Bool.eqb].
  split; rewrite !C; reflexivity.
Qed.

(** ** What the exporter does with any cloud *)

Local Open Scope Z_scope.

(** The text of a colour field: NaN for a NaN channel, and the decimal
    of an integer from 0 to 255 for every other channel, the infinite
    ones included. *)
Theorem export_colour_field (shortest_digits : JS.number -> string)
    (c : JS.number) :
  (is_nan c = true
   /\ Number_toString shortest_digits (uchar c) = "NaN"%string)
  \/ (is_nan c = false
      /\ exists k : N,
           (k <= 255)%N
           /\ Number_toString shortest_digits (uchar c) = decimal k).
Proof.
  destruct (is_nan c) eqn:Hc.
  - left. split; [reflexivity|].
    destruct (uchar_cases c) as [[_ ->]|[N _]].
    + reflexivity.
    + rewrite is_nan_mul_255 in N. congruence.
  - right. split; [reflexivity|].
    destruct (uchar_text shortest_digits c Hc) as (k & Hk & _ & E).
    exists k. split; assumption.
Qed.

(** The loop stops with a [TypeError] at the point the array ends in. *)
Lemma export_loop_ragged (shortest_digits : JS.number -> string) pd c :
  forall i content,
    (i + 3 * c < List.length (pos pd))%nat ->
    (List.length (pos pd) < i + 3 * c + 3)%nat ->
    export_loop shortest_digits (S c) pd i content = None.
Proof.
  induction c as [|c IH]; intros i content Lo Hi.
  - cbn [export_loop]. unfold export_vertex.
    assert (E : nth_error (pos pd) (i + 2) = None)
      by (apply nth_error_None; lia).
    rewrite E.
    destruct (nth_error (pos pd) i); [|reflexivity].
    destruct (nth_error (pos pd) (i + 1)); reflexivity.
  - change (export_loop shortest_digits (S (S c)) pd i content)
      with (match export_vertex shortest_digits pd i content with
            | Some content' =>
                export_loop shortest_digits (S c) pd (i + 3) content'
            | None => None
            end).
    rewrite export_vertex_text by lia. apply IH; lia.
Qed.

(** The outcome of an export by the length of the position array. *)
Lemma export_by_length (shortest_digits : JS.number -> string)
    (pd : particles) :
  let len := List.length (pos pd) in
  (len = 0%nat /\ exportPLY shortest_digits (Some pd) = NoFile)
  \/ (len <> 0%nat /\ (len mod 3 = 0)%nat
      /\ exists content, exportPLY shortest_digits (Some pd) = Download content)
  \/ ((len mod 3 <> 0)%nat /\ exportPLY shortest_digits (Some pd) = TypeError).
Proof.
  unfold exportPLY. cbv zeta.
  set (len := List.length (pos pd)).
  pose proof (Nat.div_mod_eq len 3) as D.
  pose proof (Nat.mod_upper_bound len 3 ltac:(lia)) as U.
  destruct (Nat.eqb_spec len 0) as [Z|NZ]; [left; split; [assumption|reflexivity]|].
  right. destruct (Nat.eq_dec (len mod 3) 0) as [M|M].
  - left. split; [assumption|]. split; [assumption|].
    assert (C : ((len + 2) / 3 = len / 3)%nat).
    { symmetry. apply (Nat.div_unique (len + 2) 3 (len / 3) 2); lia. }
    rewrite C, export_loop_texts by (fold len; lia). eexists. reflexivity.
  - right. split; [assumption|].
    assert (C : ((len + 2) / 3 = S (len / 3))%nat).
    { symmetry.
      apply (Nat.div_unique (len + 2) 3 (S (len / 3)) (len mod 3 - 1)); lia. }
    rewrite C, export_loop_ragged by (fold len; lia). reflexivity.
Qed.

(** The export throws exactly when the position array does not hold
    whole points; the colour array plays no part in it. *)
Theorem export_throws_iff_ragged (shortest_digits : JS.number -> string)
    (pd : particles) :
  exportPLY shortest_digits (Some pd) = TypeError
  <-> (List.length (pos pd) mod 3 <> 0)%nat.
Proof.
  destruct (export_by_length shortest_digits pd)
    as [[Z E]|[(NZ & M & c & E)|[M E]]]; rewrite E.
  - split; [discriminate|]. rewrite Z. intros H. exfalso. apply H. reflexivity.
  - split; [discriminate|intros H; contradiction].
  - split; [intros _; assumption|reflexivity].
Qed.

(** Exporting what the sampler produced never throws, and it writes a
    file exactly when some pixel was kept. *)
Theorem sampled_cloud_exports (THREE_Color : string -> rgb)
    (shortest_digits : JS.number -> string)
    (img : ImageData) (st : AppState) :
  image_ok img ->
  exists cloud,
    sample THREE_Color img st = Some cloud
    /\ exportPLY shortest_digits (Some cloud) <> TypeError
    /\ (exportPLY shortest_digits (Some cloud) = NoFile
        <-> filter (retained img st) (visited img st) = []).
Proof.
  intros Hok. eexists. split; [apply sample_visited; assumption|].
  rewrite scan_emit. cbn [pos col empty_particles app].
  set (kept := filter (retained img st) (visited img st)).
  set (pd := {| pos := flat_map (position img st) kept;
                col := flat_map (colour THREE_Color img st) kept |}).
  assert (L : List.length (pos pd) = (3 * List.length kept)%nat)
    by (apply flat_map_length3; intros xy; apply position_length).
  destruct (export_by_length shortest_digits pd)
    as [[Z E]|[(NZ & M & c & E)|[M E]]]; cbv zeta in *; rewrite E.
  - split; [discriminate|]. split; [intros _|reflexivity].
    destruct kept; [reflexivity|]. cbn [List.length] in L. lia.
  - split; [discriminate|]. split; [discriminate|].
    intros K. rewrite K in L. cbn [List.length] in L. lia.
  - exfalso. apply M. rewrite L, Nat.mul_comm. apply Nat.Div0.mod_mul.
Qed.

Lemma sampled_cloud_exports_witness :
  exists cloud,
    sample white_tint white_pixel defaults = Some cloud
    /\ exportPLY no_digits (Some cloud) <> TypeError
    /\ (exportPLY no_digits (Some cloud) = NoFile
        <-> filter (retained white_pixel defaults)
              (visited white_pixel defaults) = []).
Proof.
  apply (sampled_cloud_exports white_tint no_digits white_pixel defaults).
  unfold image_ok; simpl; lia.
Defined.

(** ** The tint *)

(** The test on the spelling "#ffffff" only saves work: a tint that
    three.js reads as white under any other spelling gives the same
    colours. *)
Theorem white_tint_any_spelling (THREE_Color : string -> rgb)
    (r g b : JS.number) (mode : ColorMode) (brightness : JS.number)
    (tintHex : string) :
  THREE_Color tintHex = (1, 1, 1)%float ->
  applyColorMode THREE_Color r g b mode brightness tintHex
  = applyColorMode THREE_Color r g b mode brightness "#ffffff".
Proof.
  intros W. unfold applyColorMode.
  destruct (String.eqb_spec tintHex "#ffffff") as [->|N].
  - reflexivity.
  - rewrite W. change ("#ffffff" =? "#ffffff")%string with true.
    destruct mode; cbv iota beta; rewrite !mul_one; reflexivity.
Qed.

Lemma white_tint_any_spelling_witness :
  applyColorMode white_tint 12%float 200%float 255%float SEPIA 0.5%float "#FFFFFF"
  = applyColorMode white_tint 12%float 200%float 255%float SEPIA 0.5%float "#ffffff".
Proof.
  apply (white_tint_any_spelling white_tint 12%float 200%float 255%float
           SEPIA 0.5%float "#FFFFFF").
  reflexivity.
Defined.

(** ** The container type of a recording *)

Lemma select_supported_spec (isTypeSupported : string -> bool)
    (types : list string) (fallback : string) :
  (exists before after,
     types = (before ++ select_supported isTypeSupported types fallback :: after)%list
     /\ isTypeSupported (select_supported isTypeSupported types fallback) = true
     /\ Forall (fun t => isTypeSupported t = false) before)
  \/ (select_supported isTypeSupported types fallback = fallback
      /\ Forall (fun t => isTypeSupported t = false) types).
Proof.
  induction types as [|t rest IH]; cbn [select_supported].
  - right. split; [reflexivity|constructor].
  - destruct (isTypeSupported t) eqn:S.
    + left. exists [], rest. split; [reflexivity|]. split; [assumption|constructor].
    + destruct IH as [(before & after & E & Y & F)|[E F]].
      * left. exists (t :: before), after. split; [cbn [app]; congruence|].
        split; [assumption|constructor; assumption].
      * right. split; [assumption|constructor; assumption].
Qed.

(** The recorder is given the first type of the list that the browser
    supports.  When the browser supports none of them it is given
    "video/webm" all the same, a type the browser has just refused. *)
Theorem selected_mime_type (isTypeSupported : string -> bool) :
  In (selectedMimeType isTypeSupported) mimeTypes
  /\ ((isTypeSupported (selectedMimeType isTypeSupported) = true
       /\ exists before after,
            mimeTypes = (before ++ selectedMimeType isTypeSupported :: after)%list
            /\ Forall (fun t => isTypeSupported t = false) before)
      \/ (isTypeSupported (selectedMimeType isTypeSupported) = false
          /\ selectedMimeType isTypeSupported = "video/webm"%string
          /\ Forall (fun t => isTypeSupported t = false) mimeTypes)).
Proof.
  unfold selectedMimeType.
  destruct (select_supported_spec isTypeSupported mimeTypes "video/webm")
    as [(before & after & E & Y & F)|[E F]].
  - split.
    + rewrite E at 2. apply in_elt.
    + left. split; [assumption|]. exists before, after. split; assumption.
  - split.
    + rewrite E. unfold mimeTypes. cbn [In]. auto.
    + right. rewrite E. split; [|split; [reflexivity|assumption]].
      rewrite Forall_forall in F. apply F. unfold mimeTypes. cbn [In]. auto.
Qed.

(** ** The font size of the text image *)

Local Open Scope Z_scope.

Lemma div_eucl_nonneg a b : 0 <= a -> 0 < b -> 0 <= fst (Z.div_eucl a b).
Proof.
  intros Ha Hb. change (fst (Z.div_eucl a b)) with (a / b).
  apply Z.div_pos; assumption.
Qed.

(** A finite number that is not zero, divided by a number, gives NaN
    only when the divisor is NaN. *)
Lemma is_nan_div_finite x y s m e :
  Prim2SF x = S754_finite s m e ->
  is_nan (x / y)%float = is_nan y.
Proof.
  intros Hx. rewrite !is_nan_spec, FloatAxioms.div_spec, Hx.
  destruct (Prim2SF y) as [sy|sy| |sy my ey]; try reflexivity.
  unfold SF64div, SFdiv, SFdiv_core_binary.
  set (m' := match _ with Zpos _ => _ | Z0 => _ | Zneg _ => _ end).
  assert (Hm' : 0 <= m').
  { unfold m'. destruct (_ - _ - _) as [|p|p]; try lia.
    apply Z.shiftl_nonneg. lia. }
  pose proof (div_eucl_nonneg m' (Zpos my) Hm' ltac:(lia)) as Q.
  destruct (Z.div_eucl m' (Zpos my)) as [q r]. cbn [fst] in Q.
  pose proof (binary_round_aux_not_nan (xorb s sy) q
                (Z.min (fexp prec emax (Zdigits2 (Zpos m) + e - (Zdigits2 (Zpos my) + ey)))
                   (e - ey))
                (new_location (Zpos my) r) Q) as H.
  destruct (binary_round_aux _ _ _ _ _ _); try reflexivity. congruence.
Qed.

(** A finite number that is not zero, times a number, gives NaN only
    when that number is NaN. *)
Lemma is_nan_mul_finite x y s m e :
  Prim2SF x = S754_finite s m e ->
  is_nan (x * y)%float = is_nan y.
Proof.
  intros Hx. rewrite !is_nan_spec, FloatAxioms.mul_spec, Hx.
  destruct (Prim2SF y) as [sy|sy| |sy my ey]; try reflexivity.
  unfold SF64mul, SFmul.
  pose proof (binary_round_aux_not_nan (xorb s sy)
                (Zpos (m * my)) (e + ey) loc_Exact ltac:(lia)) as H.
  destruct (binary_round_aux _ _ _ _ _ _); try reflexivity. congruence.
Qed.

Lemma leb_refl_60 : (60 <=? 60)%float = true.
Proof. reflexivity. Qed.

(** [Math.max(60, v)] is a number of at least 60 unless [v] is NaN. *)
Lemma Math_max_60 v : is_nan v = false ->
  is_nan (JS.Math_max 60%float v) = false
  /\ (60 <=? JS.Math_max 60%float v)%float = true.
Proof.
  intros Hn. unfold JS.Math_max.
  change (is_nan 60%float) with false. rewrite Hn. cbn [orb].
  destruct (60 <? v)%float eqn:A.
  - split; [assumption|apply ltb_leb; assumption].
  - change (is_zero 60%float) with false. cbn [andb].
    destruct (v <? 60)%float; split; reflexivity.
Qed.

(** Whatever width the canvas reports for the text, NaN and the
    infinities included, the font size is a number and never below 60. *)
Theorem fontSize_at_least_60 (measured : JS.number) :
  is_nan (fontSize measured) = false
  /\ (60 <=? fontSize measured)%float = true.
Proof.
  unfold fontSize. cbv zeta.
  destruct (800 * 0.9 <? measured)%float eqn:W; [|split; reflexivity].
  apply Math_max_60. rewrite is_nan_floor.
  pose proof (ltb_not_nan_r _ _ W) as N.
  assert (E1 : exists s m e, Prim2SF (800 * 0.9)%float = S754_finite s m e)
    by (vm_compute; eauto).
  assert (E2 : exists s m e, Prim2SF 260%float = S754_finite s m e)
    by (vm_compute; eauto).
  destruct E1 as (s1 & m1 & e1 & E1). destruct E2 as (s2 & m2 & e2 & E2).
  rewrite (is_nan_mul_finite _ _ _ _ _ E2), (is_nan_div_finite _ _ _ _ _ E1).
  assumption.
Qed.

(** ** The texture service *)

Local Open Scope string_scope.

Lemma image_of_truthy part d :
  Gemini.image_of part = Some d -> d <> "".
Proof.
  unfold Gemini.image_of, Gemini.truthy.
  destruct (Gemini.inlineData part) as [blob|]; [|discriminate].
  destruct (Gemini.data blob) as [x|]; [|discriminate].
  destruct (String.eqb_spec x "") as [E|E]; cbn [negb]; [discriminate|].
  intros H. injection H as <-. assumption.
Qed.

Lemma truthy_iff s : Gemini.truthy s = true <-> s <> "".
Proof.
  unfold Gemini.truthy.
  destruct (String.eqb_spec s ""); cbn [negb]; split; congruence.
Qed.

(** The loop over the parts finds the first part with image data. *)
Lemma first_image_spec ps :
  (exists before part after,
     ps = (before ++ part :: after)%list
     /\ Forall (fun p => Gemini.image_of p = None) before
     /\ Gemini.image_of part = Some (Gemini.first_image ps ""))
  \/ (Forall (fun p => Gemini.image_of p = None) ps
      /\ Gemini.first_image ps "" = "").
Proof.
  induction ps as [|p rest IH]; cbn [Gemini.first_image].
  - right. split; [constructor|reflexivity].
  - destruct (Gemini.image_of p) as [d|] eqn:I.
    + left. exists [], p, rest. split; [reflexivity|].
      split; [constructor|assumption].
    + destruct IH as [(before & part & after & E & F & Y)|[F E]].
      * left. exists (p :: before), part, after.
        split; [cbn [app]; congruence|].
        split; [constructor; assumption|assumption].
      * right. split; [constructor; assumption|assumption].
Qed.

Lemma first_image_none ps :
  Forall (fun p => Gemini.image_of p = None) ps ->
  Gemini.first_image ps "" = "".
Proof.
  induction 1 as [|p rest I _ IH]; [reflexivity|].
  cbn [Gemini.first_image]. rewrite I. assumption.
Qed.

Lemma or_else_truthy a b : b <> "" -> Gemini.or_else a b <> "".
Proof.
  intros Hb. unfold Gemini.or_else.
  destruct (Gemini.truthy a) eqn:T; [apply truthy_iff; assumption|assumption].
Qed.

(** A returned URL is the PNG data prefix followed by the data of the
    first part of the first candidate that has any; the key was set and
    the request resolved. *)
Theorem generate_returns_first_image
    (generateContent : string -> string -> Gemini.settled)
    (TypeError_message : string) (API_KEY : option string)
    (prompt : string) (style : Gemini.TextureStyle) (url : string) :
  Gemini.generateTextureImage generateContent TypeError_message
    API_KEY prompt style = Gemini.Returned url ->
  exists key response candidate others before part after d,
    API_KEY = Some key /\ key <> ""
    /\ generateContent Gemini.MODEL_NAME (Gemini.fullPrompt prompt style)
       = Gemini.Resolved response
    /\ Gemini.candidates response = Some (candidate :: others)
    /\ Gemini.parts candidate = Some (before ++ part :: after)%list
    /\ Forall (fun p => Gemini.image_of p = None) before
    /\ Gemini.image_of part = Some d
    /\ d <> ""
    /\ url = "data:image/png;base64," ++ d.
Proof.
  unfold Gemini.generateTextureImage.
  destruct API_KEY as [key|]; [|discriminate].
  destruct (Gemini.truthy key) eqn:K; [|discriminate].
  destruct (generateContent _ _) as [response|[|[|m|m|]]] eqn:G;
    try discriminate.
  unfold Gemini.extract.
  destruct (Gemini.candidates response) as [[|candidate others]|] eqn:C;
    try discriminate.
  destruct (Gemini.parts candidate) as [ps|] eqn:P; [|discriminate].
  cbv zeta.
  destruct (Gemini.truthy (Gemini.first_image ps "")) eqn:T; [|discriminate].
  intros H. injection H as <-.
  destruct (first_image_spec ps) as [(before & part & after & E & F & Y)|[_ E]].
  - exists key, response, candidate, others, before, part, after,
      (Gemini.first_image ps "").
    split; [reflexivity|]. split; [apply truthy_iff; assumption|].
    split; [reflexivity|]. split; [assumption|].
    split; [congruence|]. split; [assumption|]. split; [assumption|].
    split; [apply truthy_iff; assumption|reflexivity].
  - rewrite E in T. discriminate.
Qed.

Lemma generate_returns_first_image_witness :
  exists key response candidate others before part after d,
    Some "k" = Some key /\ key <> ""
    /\ (fun _ _ => Gemini.Resolved Gemini.two_images)
         Gemini.MODEL_NAME (Gemini.fullPrompt "moss" Gemini.VOXEL)
       = Gemini.Resolved response
    /\ Gemini.candidates response = Some (candidate :: others)
    /\ Gemini.parts candidate = Some (before ++ part :: after)%list
    /\ Forall (fun p => Gemini.image_of p = None) before
    /\ Gemini.image_of part = Some d
    /\ d <> ""
    /\ "data:image/png;base64,QUJD" = "data:image/png;base64," ++ d.
Proof.
  apply (generate_returns_first_image
           (fun _ _ => Gemini.Resolved Gemini.two_images) "TypeError"
           (Some "k") "moss" Gemini.VOXEL "data:image/png;base64,QUJD").
  reflexivity.
Defined.

(** Only the first candidate is read: when it has parts but no image
    data among them, the call throws "No image data found in response."
    whatever the other candidates hold. *)
Theorem generate_reads_first_candidate_only
    (generateContent : string -> string -> Gemini.settled)
    (TypeError_message : string) (key prompt : string)
    (style : Gemini.TextureStyle) (response : Gemini.Response)
    (candidate : Gemini.Candidate) (others : list Gemini.Candidate)
    (ps : list Gemini.Part) :
  key <> "" ->
  generateContent Gemini.MODEL_NAME (Gemini.fullPrompt prompt style)
  = Gemini.Resolved response ->
  Gemini.candidates response = Some (candidate :: others) ->
  Gemini.parts candidate = Some ps ->
  Forall (fun p => Gemini.image_of p = None) ps ->
  Gemini.generateTextureImage generateContent TypeError_message
    (Some key) prompt style
  = Gemini.Thrown "No image data found in response.".
Proof.
  intros K G C P F. unfold Gemini.generateTextureImage.
  rewrite (proj2 (truthy_iff key) K), G.
  unfold Gemini.extract. rewrite C, P. cbv zeta.
  rewrite (first_image_none ps F). reflexivity.
Qed.

Lemma generate_reads_first_candidate_only_witness :
  Gemini.generateTextureImage
    (fun _ _ => Gemini.Resolved Gemini.image_in_second) "TypeError"
    (Some "k") "moss" Gemini.VOXEL
  = Gemini.Thrown "No image data found in response.".
Proof.
  apply (generate_reads_first_candidate_only
           (fun _ _ => Gemini.Resolved Gemini.image_in_second) "TypeError"
           "k" "moss" Gemini.VOXEL Gemini.image_in_second
           {| Gemini.parts := Some [Gemini.text_part "none"] |}
           [{| Gemini.parts := Some [Gemini.image_part "QUJD"] |}]
           [Gemini.text_part "none"]).
  - discriminate.
  - reflexivity.
  - reflexivity.
  - reflexivity.
  - repeat constructor.
Defined.

(** What the function throws, for every value the request can be
    rejected with.  An [Error] it makes has a message that is not
    empty, "Failed to generate texture." standing in for a message that
    is missing or empty, unless the rejected value carries a truthy
    message that is no string and reads as the empty string.  A
    [TypeError] leaves the [catch] block only when the rejected value is
    [null] or [undefined], or carries a message no string can be made
    of. *)
Theorem generate_errors_have_messages
    (generateContent : string -> string -> Gemini.settled)
    (TypeError_message : string) (API_KEY : option string)
    (prompt : string) (style : Gemini.TextureStyle) :
  let request :=
    generateContent Gemini.MODEL_NAME (Gemini.fullPrompt prompt style) in
  match Gemini.generateTextureImage generateContent TypeError_message
          API_KEY prompt style with
  | Gemini.Returned _ => True
  | Gemini.Thrown message =>
      message <> ""
      \/ request = Gemini.Rejected (Gemini.Carrying (Gemini.Convertible ""))
  | Gemini.Uncaught_TypeError =>
      request = Gemini.Rejected Gemini.Nullish
      \/ request = Gemini.Rejected (Gemini.Carrying Gemini.Unconvertible)
  end.
Proof.
  cbv zeta. unfold Gemini.generateTextureImage.
  destruct API_KEY as [key|]; [|left; discriminate].
  destruct (Gemini.truthy key); [|left; discriminate].
  destruct (generateContent _ _) as [response|[|[|m|m|]]];
    cbn [Gemini.rethrow].
  - destruct (Gemini.extract _ response) as [d|m]; [exact I|].
    cbn [Gemini.rethrow]. left. apply or_else_truthy. discriminate.
  - left. reflexivity.
  - left. discriminate.
  - left. apply or_else_truthy. discriminate.
  - destruct (String.eqb_spec m "") as [->|N]; [right; reflexivity|left; assumption].
  - right. reflexivity.
Qed.
